(** * Verification of the quiz-solving agent

    A shallow embedding of [agent.py], [main.py] and the tools under
    [tools/], with the properties of the control loop, of the HTTP front
    end and of the tool wrappers stated and proved over it.

    Conventions of the embedding:
    - a Python [str] is a [string]; a character stands for one code point
      (the model covers code points below 256);
    - a Python exception that leaves a function is the [Raised] case of
      [Outcome];
    - a timestamp ([time.time()], a value of [url_time]) is a finite
      double, given by its rational value; a difference of two of them
      is a [Float], which has the infinities and NaN, and is computed by
      the subtraction of doubles, a variable of the sections below;
    - a [dict] with string keys is a [gmap string _];
    - the language model, the token counter, the operating system and the
      tool node of the graph runtime are external: they are the variables
      of the sections below, and every theorem holds for all of them. *)

From Stdlib Require Import String Ascii ZArith QArith Bool Lia.
From stdpp Require Import base option list gmap strings.

Local Open Scope string_scope.
Local Open Scope list_scope.

(** ** Python values and exceptions *)

Module Py.

(** The exceptions the embedded code can raise or catch. *)
Inductive Exn : Type :=
| IndexError
| AttributeError
| TypeError
| ValueError
| OverflowError
| HTTPException (status_code : Z) (detail : string)
| GraphRecursionError
| ExternalError (message : string).

(** [str(e)] for an exception [e] (the texts of the built-in exceptions
    are abridged). *)
Definition str_of_exn (e : Exn) : string :=
  match e with
  | IndexError => "list index out of range"
  | AttributeError => "object has no attribute"
  | TypeError => "str expected"
  | ValueError => "embedded null byte"
  | OverflowError => "cannot convert float infinity to integer"
  | HTTPException c d => d
  | GraphRecursionError => "Recursion limit reached without hitting a stop condition"
  | ExternalError m => m
  end.

Inductive Outcome (A : Type) : Type :=
| Returned (a : A)
| Raised (e : Exn).
Arguments Returned {A} a.
Arguments Raised {A} e.

(** Values decoded from JSON ([request.json()], metadata and content
    blocks of a message).  An object keeps its members in the order of
    the text. *)
#[warnings="-register-all"]
Inductive JSON : Type :=
| JNull
| JBool (b : bool)
| JNum (q : Q)
| JStr (s : string)
| JArr (items : list JSON)
| JObj (members : list (string * JSON)).

(** Truth value of a decoded JSON value ([not request_data],
    [not quiz_url]). *)
Definition truthy (v : JSON) : bool :=
  match v with
  | JNull => false
  | JBool b => b
  | JNum q => negb (Qeq_bool q 0)
  | JStr s => negb (String.eqb s "")
  | JArr items => negb (bool_decide (items = []))
  | JObj members => negb (bool_decide (members = []))
  end.

(** [d.get(key)] on the dict decoded from an object: of two members with
    the same key the later one wins. *)
Fixpoint dict_get (key : string) (members : list (string * JSON)) : option JSON :=
  match members with
  | [] => None
  | (k, v) :: rest =>
      match dict_get key rest with
      | Some v' => Some v'
      | None => if String.eqb k key then Some v else None
      end
  end.

(** [c.isspace()] on the code points below 256. *)
Definition isspace (c : ascii) : bool :=
  let n := N_of_ascii c in
  ((9 <=? n) && (n <=? 13) || (28 <=? n) && (n <=? 32) || (n =? 133) || (n =? 160))%N.

Fixpoint lstrip (s : string) : string :=
  match s with
  | EmptyString => EmptyString
  | String c rest => if isspace c then lstrip rest else s
  end.

Fixpoint rstrip (s : string) : string :=
  match s with
  | EmptyString => EmptyString
  | String c rest =>
      match rstrip rest with
      | EmptyString => if isspace c then EmptyString else String c EmptyString
      | kept => String c kept
      end
  end.

(** [s.strip()] *)
Definition strip (s : string) : string := rstrip (lstrip s).

(** [len(s)] *)
Definition len (s : string) : Z := Z.of_nat (String.length s).

(** [s[:n]] for [n >= 0] *)
Definition slice_to (n : Z) (s : string) : string :=
  String.substring 0 (Z.to_nat n) s.

(** *** More of [str] *)

(** [s.startswith(p)] *)
Definition startswith (p s : string) : bool := String.prefix p s.

(** The characters of [s] in reverse order. *)
Fixpoint reversed (s : string) : string :=
  match s with
  | EmptyString => EmptyString
  | String c rest => reversed rest +:+ String c EmptyString
  end.

(** [s.endswith(p)] *)
Definition endswith (p s : string) : bool := String.prefix (reversed p) (reversed s).

Definition newline : ascii := "010"%char.

(** [s.split("\n", 1)]: the text before the first newline and the text
    after it, or [None] when [s] has no newline (the list has one
    element then). *)
Fixpoint split_first_line (s : string) : option (string * string) :=
  match s with
  | EmptyString => None
  | String c rest =>
      if Ascii.eqb c newline then Some (EmptyString, rest)
      else
        match split_first_line rest with
        | Some (line, others) => Some (String c line, others)
        | None => None
        end
  end.

(** [s.rsplit("\n", 1)[0]]: the text before the last newline, or [s]
    when it has no newline. *)
Fixpoint before_last_line (s : string) : string :=
  match s with
  | EmptyString => EmptyString
  | String c rest =>
      match split_first_line rest with
      | Some _ => String c (before_last_line rest)
      | None => if Ascii.eqb c newline then EmptyString else s
      end
  end.

(** Every character of [s] is white space. *)
Fixpoint is_blank (s : string) : bool :=
  match s with
  | EmptyString => true
  | String c rest => isspace c && is_blank rest
  end.

(** [s] has no newline. *)
Fixpoint one_line (s : string) : bool :=
  match s with
  | EmptyString => true
  | String c rest => negb (Ascii.eqb c newline) && one_line rest
  end.

Lemma app_cons_str (c : ascii) (s t : string) :
  String c s +:+ t = String c (s +:+ t).
Proof. reflexivity. Qed.

Lemma app_empty_str (t : string) : "" +:+ t = t.
Proof. reflexivity. Qed.

(** Unfold [+:+] on a text whose first character is known. *)
Ltac unfold_app := rewrite ?app_cons_str, ?app_empty_str; simpl.

Lemma app_nil_right (s : string) : s +:+ "" = s.
Proof. induction s as [| c s IH]; unfold_app; [reflexivity | now rewrite IH]. Qed.

Lemma app_assoc_str (a b c : string) : (a +:+ b) +:+ c = a +:+ (b +:+ c).
Proof. induction a as [| x a IH]; unfold_app; [reflexivity | now rewrite IH]. Qed.

Lemma lstrip_blank (s : string) : is_blank s = true -> lstrip s = "".
Proof.
  induction s as [| c s IH]; simpl; [reflexivity |].
  intros H. apply andb_prop in H as [Hc Hs]. rewrite Hc. auto.
Qed.

Lemma rstrip_blank (s : string) : is_blank s = true -> rstrip s = "".
Proof.
  induction s as [| c s IH]; simpl; [reflexivity |].
  intros H. apply andb_prop in H as [Hc Hs]. rewrite (IH Hs). now rewrite Hc.
Qed.

Lemma lstrip_app (s t : string) :
  lstrip (s +:+ t) = if is_blank s then lstrip t else lstrip s +:+ t.
Proof.
  induction s as [| c s IH]; unfold_app; [reflexivity |].
  destruct (isspace c); simpl; [exact IH | reflexivity].
Qed.

Lemma rstrip_app_blank (s t : string) :
  is_blank t = true -> rstrip (s +:+ t) = rstrip s.
Proof.
  intros Ht. induction s as [| c s IH]; unfold_app.
  - now apply rstrip_blank.
  - now rewrite IH.
Qed.

(** White space around a text does not change what [strip] returns. *)
Lemma strip_ignores_blank_margins (before s after : string) :
  is_blank before = true -> is_blank after = true ->
  strip (before +:+ s +:+ after) = strip s.
Proof.
  intros Hb Ha. unfold strip.
  rewrite lstrip_app, Hb, lstrip_app.
  destruct (is_blank s) eqn:Hs.
  - rewrite (lstrip_blank after Ha), (lstrip_blank s Hs). reflexivity.
  - now apply rstrip_app_blank.
Qed.

Lemma rstrip_head (c : ascii) (s : string) :
  isspace c = false -> exists kept, rstrip (String c s) = String c kept.
Proof.
  intros Hc. simpl. destruct (rstrip s); rewrite ?Hc; eauto.
Qed.

Lemma rstrip_idempotent (s : string) : rstrip (rstrip s) = rstrip s.
Proof.
  induction s as [| c s IH]; simpl; [reflexivity |].
  destruct (rstrip s) as [| d kept] eqn:E.
  - destruct (isspace c) eqn:Hc; simpl; [reflexivity | now rewrite Hc].
  - simpl in *. now rewrite IH.
Qed.

Lemma lstrip_head (s : string) :
  lstrip s = "" \/ exists c rest, lstrip s = String c rest /\ isspace c = false.
Proof.
  induction s as [| c s IH]; simpl; [now left |].
  destruct (isspace c) eqn:Hc; [exact IH |]. right. eauto.
Qed.

(** What [strip] returns has no white space left to strip. *)
Lemma strip_idempotent (s : string) : strip (strip s) = strip s.
Proof.
  unfold strip.
  destruct (lstrip_head s) as [-> | (c & rest & -> & Hc)]; [reflexivity |].
  destruct (rstrip_head c rest Hc) as [kept Hk]. rewrite Hk.
  simpl lstrip. rewrite Hc. rewrite <- Hk. apply rstrip_idempotent.
Qed.

(** A text that begins and ends with characters that are not white
    space is its own [strip]. *)
Lemma rstrip_closed (s : string) (c : ascii) :
  isspace c = false -> rstrip (s +:+ String c "") = s +:+ String c "".
Proof.
  intros Hc. induction s as [| d s IH]; unfold_app.
  - now rewrite Hc.
  - rewrite IH. destruct s; reflexivity.
Qed.

Lemma strip_closed (c d : ascii) (s : string) :
  isspace c = false -> isspace d = false ->
  strip (String c (s +:+ String d "")) = String c (s +:+ String d "").
Proof.
  intros Hc Hd. unfold strip. simpl lstrip. rewrite Hc.
  rewrite <- app_cons_str. now apply rstrip_closed.
Qed.

Lemma split_first_line_app (line others : string) :
  one_line line = true ->
  split_first_line (line +:+ String newline others) = Some (line, others).
Proof.
  induction line as [| c line IH]; unfold_app; [reflexivity |].
  intros H. apply andb_prop in H as [Hc Hl].
  apply negb_true_iff in Hc. rewrite Hc. now rewrite IH.
Qed.

Lemma split_first_line_none (s : string) :
  one_line s = true <-> split_first_line s = None.
Proof.
  induction s as [| c s IH]; simpl; [tauto |].
  destruct (Ascii.eqb c newline); simpl; [split; discriminate |].
  rewrite IH. destruct (split_first_line s) as [[line others] |]; split; congruence.
Qed.

Lemma before_last_line_app (text last : string) :
  one_line last = true ->
  before_last_line (text +:+ String newline last) = text.
Proof.
  intros Hlast. induction text as [| c text IH]; unfold_app.
  - apply split_first_line_none in Hlast. now rewrite Hlast.
  - destruct (split_first_line (text +:+ String newline last)) eqn:E.
    + now rewrite IH.
    + apply split_first_line_none in E. exfalso. clear -E.
      induction text as [| d text IH];
        rewrite ?app_cons_str, ?app_empty_str in E; simpl in E; [discriminate |].
      apply andb_prop in E as [_ E]. auto.
Qed.

Lemma before_last_line_one_line (s : string) :
  one_line s = true -> before_last_line s = s.
Proof.
  destruct s as [| c s]; simpl; [reflexivity |].
  intros H. apply andb_prop in H as [Hc Hs]. apply negb_true_iff in Hc.
  apply split_first_line_none in Hs. now rewrite Hs, Hc.
Qed.

Lemma reversed_app (a b : string) : reversed (a +:+ b) = reversed b +:+ reversed a.
Proof.
  induction a as [| c a IH]; unfold_app; [now rewrite app_nil_right |].
  now rewrite IH, app_assoc_str.
Qed.

Lemma prefix_app (p s : string) : String.prefix p (p +:+ s) = true.
Proof.
  induction p as [| c p IH]; unfold_app; [now destruct s |].
  destruct (ascii_dec c c); [exact IH | contradiction].
Qed.

Lemma endswith_app (p s : string) : endswith p (s +:+ p) = true.
Proof. unfold endswith. rewrite reversed_app. apply prefix_app. Qed.

(** *** [float] values *)

(** A Python [float]: a double, given by its rational value when it is
    finite, or one of the two infinities, or NaN. *)
Inductive Float : Type :=
| Finite (value : Q)
| Infinity
| NegInfinity
| NaN.

(** [x >= bound] and [x > bound] for a float [x] and a number [bound]
    that a double holds exactly; a comparison with NaN is false. *)
Definition float_ge (x : Float) (bound : Q) : bool :=
  match x with
  | Finite value => Qle_bool bound value
  | Infinity => true
  | NegInfinity | NaN => false
  end.

Definition float_gt (x : Float) (bound : Q) : bool :=
  match x with
  | Finite value => negb (Qle_bool value bound)
  | Infinity => true
  | NegInfinity | NaN => false
  end.

(** The float is zero. *)
Definition is_zero (x : Float) : Prop :=
  match x with
  | Finite value => (value == 0)%Q
  | _ => False
  end.

(** Double arithmetic on finite values whose difference a double holds
    exactly, as it is for the whole numbers of the examples. *)
Definition exact_sub (x y : Q) : Float := Finite (x - y).

End Py.

Import Py.

(** ** tools/: the tool wrappers *)

Module Tools.

(** A computation on the outside world (file system, processes,
    network), whose state has the abstract type [Sys]: it returns a
    value or raises, and leaves a new state.  [print] is taken as a
    no-op throughout. *)
Definition IO (Sys A : Type) : Type := Sys -> Outcome A * Sys.

Definition ret {Sys A : Type} (a : A) : IO Sys A := fun s => (Returned a, s).

Definition bind {Sys A B : Type} (m : IO Sys A) (f : A -> IO Sys B) : IO Sys B :=
  fun s =>
    match m s with
    | (Returned a, s') => f a s'
    | (Raised e, s') => (Raised e, s')
    end.

(** [try: body except Exception as e: handler(e)] *)
Definition try_except {Sys A : Type} (body : IO Sys A) (handler : Exn -> IO Sys A)
    : IO Sys A :=
  fun s =>
    match body s with
    | (Returned a, s') => (Returned a, s')
    | (Raised e, s') => handler e s'
    end.

Notation "x <- m ;; k" := (bind m (fun x => k))
  (at level 100, m at next level, right associativity).
Notation "m ;;; k" := (bind m (fun _ => k))
  (at level 100, right associativity).

(** [os.path.join(a, b)] on a POSIX system, for a directory name [a]
    without trailing slash: an absolute [b] replaces [a]. *)
Definition path_join (a b : string) : string :=
  match b with
  | String "/" _ => b
  | _ => a +:+ "/" +:+ b
  end.

Definition truncation_note : string := "...truncated due to large size".

Section WithSystem.

Variable Sys : Type.

(** A handle on a child process, an HTTP response. *)
Variable Process Response : Type.

(** The library calls of the tools, each of which may raise. *)
Variable os_makedirs : string -> IO Sys unit.
(** [with open(path, "w") as f: f.write(text)] *)
Variable write_text : string -> string -> IO Sys unit.
(** [subprocess.Popen(argv, stdout=PIPE, stderr=PIPE, text=True, cwd=cwd)] *)
Variable Popen : list string -> string -> IO Sys Process.
Variable communicate : Process -> IO Sys (string * string).
(** The attribute [returncode] of a process that has ended. *)
Variable returncode : Process -> Sys -> Z.
(** [requests.get(url, stream=True)] and [raise_for_status()] *)
Variable requests_get : string -> IO Sys Response.
Variable raise_for_status : Response -> IO Sys unit.
(** The [with open(file_path, "wb")] block of [download_file]: the
    non-empty chunks of the response body are written to the file. *)
Variable write_chunks : string -> Response -> IO Sys unit.
(** The [with sync_playwright()] block up to [browser.close()]: the
    content of the page after loading it in a headless browser. *)
Variable render_page : string -> IO Sys string.
(** The [src] of the [img] elements of a page, joined with its URL. *)
Variable image_urls_of : string -> string -> IO Sys (list string).

(** *** tools/run_code.py *)

(** The first part of the [try] block of [run_code]: the script is
    written and run, and its output is collected. *)
Definition run_script (source_code : string) : IO Sys (Process * string * string) :=
  let script_filename := "runner.py" in
  os_makedirs "LLMFiles" ;;;
  write_text (path_join "LLMFiles" script_filename) source_code ;;;
  execution_process <- Popen ["uv"; "run"; script_filename] "LLMFiles" ;;
  output <- communicate execution_process ;;
  ret (execution_process, output.1, output.2).

(** The rest of the [try] block: what is returned for the collected
    output. *)
Definition report (execution_process : Process) (std_output std_error : string)
    : IO Sys JSON :=
  if (10000 <=? len std_output)%Z then
    ret (JStr (slice_to 10000 std_output +:+ truncation_note))
  else if (10000 <=? len std_error)%Z then
    ret (JStr (slice_to 10000 std_error +:+ truncation_note))
  else
    fun s =>
      (Returned (JObj [("stdout", JStr std_output);
                       ("stderr", JStr std_error);
                       ("return_code", JNum (inject_Z (returncode execution_process s)))]),
       s).

Definition run_code_body (source_code : string) : IO Sys JSON :=
  ran <- run_script source_code ;;
  report ran.1.1 ran.1.2 ran.2.

Definition run_code_failure (execution_error : Exn) : JSON :=
  JObj [("stdout", JStr "");
        ("stderr", JStr (str_of_exn execution_error));
        ("return_code", JNum (inject_Z (-1)))].

Definition run_code (source_code : string) : IO Sys JSON :=
  try_except (run_code_body source_code)
             (fun execution_error => ret (run_code_failure execution_error)).

(** *** tools/download_file.py *)

Definition download_file_body (source_url target_filename : string) : IO Sys JSON :=
  http_response <- requests_get source_url ;;
  raise_for_status http_response ;;;
  let storage_directory := "LLMFiles" in
  os_makedirs storage_directory ;;;
  let file_path := path_join storage_directory target_filename in
  write_chunks file_path http_response ;;;
  ret (JStr target_filename).

Definition download_file_failure (download_error : Exn) : JSON :=
  JStr ("Error downloading file: " +:+ str_of_exn download_error).

Definition download_file (source_url target_filename : string) : IO Sys JSON :=
  try_except (download_file_body source_url target_filename)
             (fun download_error => ret (download_file_failure download_error)).

(** *** tools/web_scraper.py *)

Definition get_rendered_html_body (target_url : string) : IO Sys JSON :=
  html_content <- render_page target_url ;;
  image_urls <- image_urls_of target_url html_content ;;
  let html_content :=
    if (300000 <? len html_content)%Z
    then slice_to 300000 html_content +:+ "... [TRUNCATED DUE TO SIZE]"
    else html_content in
  ret (JObj [("html", JStr html_content);
             ("images", JArr (map JStr image_urls));
             ("url", JStr target_url)]).

Definition get_rendered_html_failure (error : Exn) : JSON :=
  JObj [("error", JStr ("Error fetching/rendering page: " +:+ str_of_exn error))].

Definition get_rendered_html (target_url : string) : IO Sys JSON :=
  try_except (get_rendered_html_body target_url)
             (fun error => ret (get_rendered_html_failure error)).

(** *** The rest of the manifest *)

(** The tools of [AVAILABLE_TOOLS] whose sources are not under tools/. *)
Inductive OtherTool : Type :=
| post_request
| add_dependencies
| ocr_image_tool
| transcribe_audio
| encode_image_to_base64.

(** What each of them does with its arguments. *)
Variable other_tool_body : OtherTool -> JSON -> IO Sys JSON.

(** Modelled from the spec: the tools [post_request], [add_dependencies],
    [ocr_image_tool], [transcribe_audio] and [encode_image_to_base64] of
    the manifest are not among the sources.  Section 4.4: each capability
    is invoked with the arguments the model supplied, and any internal
    failure is caught and returned as a textual error result. *)
Definition other_tool (t : OtherTool) (arguments : JSON) : IO Sys JSON :=
  try_except (other_tool_body t arguments)
             (fun error => ret (JStr (str_of_exn error))).

(** One invocation of a tool of [AVAILABLE_TOOLS], with its arguments. *)
Inductive Invocation : Type :=
| call_run_code (source_code : string)
| call_get_rendered_html (target_url : string)
| call_download_file (source_url target_filename : string)
| call_other (t : OtherTool) (arguments : JSON).

(** The body of the tool: the statements inside its [try]. *)
Definition body_of (i : Invocation) : IO Sys JSON :=
  match i with
  | call_run_code source_code => run_code_body source_code
  | call_get_rendered_html target_url => get_rendered_html_body target_url
  | call_download_file source_url target_filename =>
      download_file_body source_url target_filename
  | call_other t arguments => other_tool_body t arguments
  end.

Definition invoke_tool (i : Invocation) : IO Sys JSON :=
  match i with
  | call_run_code source_code => run_code source_code
  | call_get_rendered_html target_url => get_rendered_html target_url
  | call_download_file source_url target_filename =>
      download_file source_url target_filename
  | call_other t arguments => other_tool t arguments
  end.

(** The names of [AVAILABLE_TOOLS] in agent.py, in order; every
    invocation is an invocation of one of them, and each of them can be
    invoked. *)
Definition AVAILABLE_TOOLS : list string :=
  ["run_code"; "get_rendered_html"; "download_file"; "post_request";
   "add_dependencies"; "ocr_image_tool"; "transcribe_audio"; "encode_image_to_base64"].

Definition other_tool_name (t : OtherTool) : string :=
  match t with
  | post_request => "post_request"
  | add_dependencies => "add_dependencies"
  | ocr_image_tool => "ocr_image_tool"
  | transcribe_audio => "transcribe_audio"
  | encode_image_to_base64 => "encode_image_to_base64"
  end.

Definition tool_name (i : Invocation) : string :=
  match i with
  | call_run_code _ => "run_code"
  | call_get_rendered_html _ => "get_rendered_html"
  | call_download_file _ _ => "download_file"
  | call_other t _ => other_tool_name t
  end.

Lemma invocations_cover_the_manifest :
  (forall i, In (tool_name i) AVAILABLE_TOOLS) /\
  (forall name, In name AVAILABLE_TOOLS -> exists i, tool_name i = name).
Proof.
  split.
  - intros [src | url | url file | [ | | | | ] arguments]; simpl; auto 10.
  - intros name Hin. simpl in Hin.
    destruct Hin as [<- | [<- | [<- | [<- | [<- | [<- | [<- | [<- | []]]]]]]]].
    + now exists (call_run_code "").
    + now exists (call_get_rendered_html "").
    + now exists (call_download_file "" "").
    + now exists (call_other post_request JNull).
    + now exists (call_other add_dependencies JNull).
    + now exists (call_other ocr_image_tool JNull).
    + now exists (call_other transcribe_audio JNull).
    + now exists (call_other encode_image_to_base64 JNull).
Qed.

(** The result is a text that ends with [str(e)], or a dict with such a
    text among its values. *)
Definition carries_error_text (e : Exn) (result : JSON) : Prop :=
  exists lead,
    result = JStr (lead +:+ str_of_exn e) \/
    exists key members,
      result = JObj members /\ In (key, JStr (lead +:+ str_of_exn e)) members.

Lemma try_except_returns {A : Type} (body : IO Sys A) (on_error : Exn -> A) (s : Sys) :
  try_except body (fun e => ret (on_error e)) s =
    match body s with
    | (Returned a, s') => (Returned a, s')
    | (Raised e, s') => (Returned (on_error e), s')
    end.
Proof.
  unfold try_except, ret. now destruct (body s) as [[a | e] s'].
Qed.

(** The handler of each tool, as a function of the exception. *)
Definition failure_of (i : Invocation) (e : Exn) : JSON :=
  match i with
  | call_run_code _ => run_code_failure e
  | call_get_rendered_html _ => get_rendered_html_failure e
  | call_download_file _ _ => download_file_failure e
  | call_other _ _ => JStr (str_of_exn e)
  end.

Lemma invoke_tool_unfold (i : Invocation) (s : Sys) :
  invoke_tool i s =
    match body_of i s with
    | (Returned a, s') => (Returned a, s')
    | (Raised e, s') => (Returned (failure_of i e), s')
    end.
Proof.
  destruct i; simpl; apply try_except_returns.
Qed.

Lemma failure_carries_error_text (i : Invocation) (e : Exn) :
  carries_error_text e (failure_of i e).
Proof.
  destruct i; simpl.
  - exists "". right. exists "stderr", [("stdout", JStr ""); ("stderr", JStr (str_of_exn e));
                                       ("return_code", JNum (inject_Z (-1)))].
    split; [reflexivity | simpl; auto].
  - exists "Error fetching/rendering page: ". right.
    exists "error", [("error", JStr ("Error fetching/rendering page: " +:+ str_of_exn e))].
    split; [reflexivity | simpl; auto].
  - exists "Error downloading file: ". now left.
  - exists "". now left.
Qed.

(** C8: every invocation of a tool of the manifest returns a result and
    raises nothing, in every state of the outside world; when the body
    of the tool raises an exception, the result carries the text of that
    exception; and when the exception is a failure of the outside world
    with the text [message], the result is the dict of [run_code] with
    [message] as its stderr and the exit code -1, the dict of
    [get_rendered_html] with "Error fetching/rendering page: " and
    [message] as its error, the text "Error downloading file: " and
    [message] of [download_file], or [message] itself for the other
    tools. *)
Theorem tool_failure_is_returned_as_error_text :
  forall (i : Invocation) (s : Sys),
    (exists result s', invoke_tool i s = (Returned result, s')) /\
    (forall e s', body_of i s = (Raised e, s') ->
       exists result,
         invoke_tool i s = (Returned result, s') /\ carries_error_text e result) /\
    (forall message s', body_of i s = (Raised (ExternalError message), s') ->
       invoke_tool i s =
         (Returned
            match i with
            | call_run_code _ =>
                JObj [("stdout", JStr "");
                      ("stderr", JStr message);
                      ("return_code", JNum (inject_Z (-1)))]
            | call_get_rendered_html _ =>
                JObj [("error", JStr ("Error fetching/rendering page: " +:+ message))]
            | call_download_file _ _ =>
                JStr ("Error downloading file: " +:+ message)
            | call_other _ _ => JStr message
            end, s')).
Proof.
  intros i s. rewrite invoke_tool_unfold. split; [| split].
  - destruct (body_of i s) as [[a | e] s']; eauto.
  - intros e s' ->. exists (failure_of i e).
    split; [reflexivity | apply failure_carries_error_text].
  - intros message s' ->. destruct i; reflexivity.
Qed.

(** *** Slices *)

Lemma substring_whole (s : string) (n : nat) :
  String.length s <= n -> String.substring 0 n s = s.
Proof.
  revert n. induction s as [| c s IH]; intros n Hn.
  - now destruct n.
  - destruct n as [| n]; simpl in *; [lia |]. rewrite IH by lia. reflexivity.
Qed.

Lemma substring_length (s : string) (n : nat) :
  n <= String.length s -> String.length (String.substring 0 n s) = n.
Proof.
  revert n. induction s as [| c s IH]; intros n Hn.
  - destruct n; simpl in *; [reflexivity | lia].
  - destruct n as [| n]; simpl in *; [reflexivity |]. rewrite IH by lia. reflexivity.
Qed.

Lemma app_length_str (a b : string) :
  String.length (a +:+ b) = String.length a + String.length b.
Proof.
  induction a as [| c a IH]; unfold_app; [reflexivity | now rewrite IH].
Qed.

Lemma substring_splits (s : string) (n : nat) :
  exists dropped, s = String.substring 0 n s +:+ dropped.
Proof.
  revert n. induction s as [| c s IH]; intros n.
  - exists "". now destruct n.
  - destruct n as [| n]; simpl.
    + now exists (String c s).
    + destruct (IH n) as [dropped Hd]. exists dropped. unfold_app. now rewrite <- Hd.
Qed.

Lemma slice_to_short (n : Z) (s : string) : (len s <= n)%Z -> slice_to n s = s.
Proof.
  intros H. unfold slice_to, len in *. apply substring_whole. lia.
Qed.

Lemma slice_to_len (n : Z) (s : string) :
  (0 <= n <= len s)%Z -> len (slice_to n s) = n.
Proof.
  intros H. unfold slice_to, len in *. rewrite substring_length by lia. lia.
Qed.

(** [s[:n]] is the first [n] characters of [s], when it has as many. *)
Lemma slice_to_splits (n : Z) (s : string) :
  (0 <= n <= len s)%Z ->
  exists dropped, s = slice_to n s +:+ dropped /\ len (slice_to n s) = n.
Proof.
  intros H. destruct (substring_splits s (Z.to_nat n)) as [dropped Hd].
  exists dropped. split; [exact Hd | now apply slice_to_len].
Qed.

Lemma run_code_after_script (source_code : string) (s s' : Sys)
    (execution_process : Process) (std_output std_error : string) :
  run_script source_code s = (Returned (execution_process, std_output, std_error), s') ->
  run_code source_code s = report execution_process std_output std_error s'.
Proof.
  intros Hran. unfold run_code, try_except, run_code_body, bind. rewrite Hran. simpl.
  unfold report, ret.
  destruct (10000 <=? len std_output)%Z; [reflexivity |].
  destruct (10000 <=? len std_error)%Z; reflexivity.
Qed.

(** C9: when the script ran and its output was collected, [run_code]
    returns a plain string, without the exit code and without the other
    stream, as soon as the standard output, or else the standard error,
    has 10000 characters or more: the string is the first 10000
    characters of that stream, the rest of it dropped, followed by
    "...truncated due to large size"; it returns the dict of both
    streams and the exit code only when both are shorter. *)
Theorem run_code_truncates_to_plain_string :
  forall (source_code : string) (s s' : Sys) (execution_process : Process)
         (std_output std_error : string),
    run_script source_code s = (Returned (execution_process, std_output, std_error), s') ->
    ((10000 <= len std_output)%Z ->
       exists kept dropped,
         std_output = kept +:+ dropped /\ len kept = 10000%Z /\
         run_code source_code s =
           (Returned (JStr (kept +:+ "...truncated due to large size")), s')) /\
    ((len std_output < 10000)%Z -> (10000 <= len std_error)%Z ->
       exists kept dropped,
         std_error = kept +:+ dropped /\ len kept = 10000%Z /\
         run_code source_code s =
           (Returned (JStr (kept +:+ "...truncated due to large size")), s')) /\
    ((len std_output < 10000)%Z -> (len std_error < 10000)%Z ->
       run_code source_code s =
         (Returned (JObj [("stdout", JStr std_output);
                          ("stderr", JStr std_error);
                          ("return_code",
                           JNum (inject_Z (returncode execution_process s')))]), s')) /\
    ((exists members, (run_code source_code s).1 = Returned (JObj members)) <->
       (len std_output < 10000)%Z /\ (len std_error < 10000)%Z).
Proof.
  intros source_code s s' execution_process std_output std_error Hran.
  rewrite (run_code_after_script _ _ _ _ _ _ Hran). unfold report, ret.
  assert (Hcut : forall stream, (10000 <= len stream)%Z ->
            exists kept dropped,
              stream = kept +:+ dropped /\ len kept = 10000%Z /\
              (Returned (JStr (slice_to 10000 stream +:+ truncation_note)), s')
              = (Returned (JStr (kept +:+ "...truncated due to large size")), s')).
  { intros stream Hlong.
    destruct (slice_to_splits 10000 stream ltac:(lia)) as [dropped [Hd Hl]].
    exists (slice_to 10000 stream), dropped. repeat split; assumption. }
  destruct (Z.leb_spec 10000 (len std_output)) as [Hout | Hout];
    [| destruct (Z.leb_spec 10000 (len std_error)) as [Herr | Herr]];
    (split; [intros; solve [now apply Hcut | lia] |]);
    (split; [intros; solve [now apply Hcut | lia] |]);
    (split; [intros; solve [reflexivity | lia] |]);
    simpl; (split; [| intros; solve [eauto | lia]]).
  - intros [members [=]].
  - intros [members [=]].
  - auto.
Qed.

(** *** Bounds of the results *)

(** X6: an output of exactly 10000 characters is returned whole, and
    still as a plain string with the truncation note after it. *)
Theorem run_code_marks_full_output_as_truncated :
  forall (source_code : string) (s s' : Sys) (execution_process : Process)
         (std_output std_error : string),
    run_script source_code s = (Returned (execution_process, std_output, std_error), s') ->
    len std_output = 10000%Z ->
    run_code source_code s = (Returned (JStr (std_output +:+ truncation_note)), s').
Proof.
  intros source_code s s' execution_process std_output std_error Hran Hlen.
  rewrite (run_code_after_script _ _ _ _ _ _ Hran). unfold report, ret.
  rewrite Hlen. simpl. rewrite slice_to_short by lia. reflexivity.
Qed.

(** X7: when [run_code] returns a plain string after the script ran,
    that string has exactly 10030 characters: 10000 of output and the
    note. *)
Theorem run_code_plain_string_has_10030_characters :
  forall (source_code : string) (s s' : Sys) (execution_process : Process)
         (std_output std_error text : string),
    run_script source_code s = (Returned (execution_process, std_output, std_error), s') ->
    (run_code source_code s).1 = Returned (JStr text) ->
    len text = 10030%Z.
Proof.
  intros source_code s s' execution_process std_output std_error text Hran.
  rewrite (run_code_after_script _ _ _ _ _ _ Hran). unfold report, ret.
  assert (Hnote : forall stream, (10000 <= len stream)%Z ->
             len (slice_to 10000 stream +:+ truncation_note) = 10030%Z).
  { intros stream Hs. pose proof (slice_to_len 10000 stream ltac:(lia)) as H.
    unfold len in *. rewrite app_length_str. rewrite Nat2Z.inj_add, H. reflexivity. }
  destruct (Z.leb_spec 10000 (len std_output));
    [| destruct (Z.leb_spec 10000 (len std_error))]; simpl.
  - intros [= <-]. now apply Hnote.
  - intros [= <-]. now apply Hnote.
  - discriminate.
Qed.

(** X8: the page [get_rendered_html] returns is never longer than
    300027 characters, a page of up to 300000 characters is returned as
    it is, and the image links are those of the whole page. *)
Theorem get_rendered_html_bounds_the_page :
  forall (target_url html_content : string) (image_urls : list string) (s s1 s2 : Sys),
    render_page target_url s = (Returned html_content, s1) ->
    image_urls_of target_url html_content s1 = (Returned image_urls, s2) ->
    exists html,
      get_rendered_html target_url s
        = (Returned (JObj [("html", JStr html);
                           ("images", JArr (map JStr image_urls));
                           ("url", JStr target_url)]), s2) /\
      (len html <= 300027)%Z /\
      ((len html_content <= 300000)%Z -> html = html_content).
Proof.
  intros target_url html_content image_urls s s1 s2 Hpage Himages.
  unfold get_rendered_html, try_except, get_rendered_html_body, bind, ret.
  rewrite Hpage, Himages.
  destruct (Z.ltb_spec 300000 (len html_content)) as [Hlong | Hshort];
    eexists; (split; [reflexivity |]); split; try lia.
  - pose proof (slice_to_len 300000 html_content ltac:(lia)) as H.
    unfold len in *. rewrite app_length_str, Nat2Z.inj_add, H. simpl. lia.
  - reflexivity.
Qed.

(** X9: when the server answers with an error status, [download_file]
    returns the error text and leaves the outside world as
    [raise_for_status] left it: no directory is made, no file written. *)
Theorem download_file_http_error_writes_nothing :
  forall (source_url target_filename : string) (http_response : Response)
         (e : Exn) (s s1 s2 : Sys),
    requests_get source_url s = (Returned http_response, s1) ->
    raise_for_status http_response s1 = (Raised e, s2) ->
    download_file source_url target_filename s
      = (Returned (JStr ("Error downloading file: " +:+ str_of_exn e)), s2).
Proof.
  intros source_url target_filename http_response e s s1 s2 Hget Hstatus.
  unfold download_file, try_except, download_file_body, bind, ret.
  now rewrite Hget, Hstatus.
Qed.

End WithSystem.

(** *** A sample outside world

    The state is trivial; the script prints 12000 characters and a
    warning and exits with code 3; the network refuses connections. *)

Definition chatty_output : string := N.iter 12000 (String "y") "".
Arguments chatty_output : simpl never.

Definition sample_makedirs (path : string) : IO unit unit := ret tt.
Definition sample_write_text (path text : string) : IO unit unit := ret tt.
Definition sample_Popen (argv : list string) (cwd : string) : IO unit unit := ret tt.
Definition sample_communicate (p : unit) : IO unit (string * string) :=
  ret (chatty_output, "warning").
Definition sample_returncode (p : unit) (s : unit) : Z := 3.
Definition refused_get (url : string) : IO unit unit :=
  fun s => (Raised (ExternalError "Connection refused"), s).
Definition sample_raise_for_status (r : unit) : IO unit unit := ret tt.
Definition sample_write_chunks (path : string) (r : unit) : IO unit unit := ret tt.
Definition sample_render_page (url : string) : IO unit string := ret "<html></html>".
Definition sample_image_urls_of (url html : string) : IO unit (list string) := ret [].
Definition sample_other_tool_body (t : OtherTool) (arguments : JSON) : IO unit JSON :=
  ret JNull.

Definition sample_run_script : string -> IO unit (unit * string * string) :=
  run_script unit unit sample_makedirs sample_write_text sample_Popen sample_communicate.

Definition sample_run_code : string -> IO unit JSON :=
  run_code unit unit sample_makedirs sample_write_text sample_Popen sample_communicate
    sample_returncode.

Definition sample_body_of : Invocation -> IO unit JSON :=
  body_of unit unit unit sample_makedirs sample_write_text sample_Popen sample_communicate
    sample_returncode refused_get sample_raise_for_status sample_write_chunks
    sample_render_page sample_image_urls_of sample_other_tool_body.

Definition sample_invoke_tool : Invocation -> IO unit JSON :=
  invoke_tool unit unit unit sample_makedirs sample_write_text sample_Popen
    sample_communicate sample_returncode refused_get sample_raise_for_status
    sample_write_chunks sample_render_page sample_image_urls_of sample_other_tool_body.

Lemma run_code_truncates_to_plain_string_witness :
  sample_run_script "print('y' * 12000)" tt
    = (Returned (tt, chatty_output, "warning"), tt) /\
  (10000 <= len chatty_output)%Z /\
  exists kept dropped,
    chatty_output = kept +:+ dropped /\ len kept = 10000%Z /\
    sample_run_code "print('y' * 12000)" tt
      = (Returned (JStr (kept +:+ "...truncated due to large size")), tt).
Proof.
  assert (Hran : sample_run_script "print('y' * 12000)" tt
                 = (Returned (tt, chatty_output, "warning"), tt)) by reflexivity.
  assert (Hlong : (10000 <= len chatty_output)%Z) by (vm_compute; discriminate).
  split; [exact Hran | split; [exact Hlong |]].
  exact (proj1 (run_code_truncates_to_plain_string unit unit sample_makedirs
                  sample_write_text sample_Popen sample_communicate sample_returncode
                  "print('y' * 12000)" tt tt tt chatty_output "warning" Hran) Hlong).
Defined.

Lemma tool_failure_is_returned_as_error_text_witness :
  let download := call_download_file "http://x/data.csv" "data.csv" in
  sample_body_of download tt = (Raised (ExternalError "Connection refused"), tt) /\
  sample_invoke_tool download tt
    = (Returned (JStr ("Error downloading file: " +:+ "Connection refused")), tt).
Proof.
  intros download.
  assert (Hraised : sample_body_of download tt
                    = (Raised (ExternalError "Connection refused"), tt)) by reflexivity.
  split; [exact Hraised |].
  exact (proj2 (proj2 (tool_failure_is_returned_as_error_text unit unit unit
                         sample_makedirs sample_write_text sample_Popen
                         sample_communicate sample_returncode refused_get
                         sample_raise_for_status sample_write_chunks sample_render_page
                         sample_image_urls_of sample_other_tool_body download tt))
               "Connection refused" tt Hraised).
Defined.

Example download_failure_text :
  sample_invoke_tool (call_download_file "http://x/data.csv" "data.csv") tt
  = (Returned (JStr "Error downloading file: Connection refused"), tt).
Proof. reflexivity. Qed.

(** *** More sample worlds *)

(** A script that prints exactly 10000 characters; a server that answers
    with the status 404. *)
Definition full_output : string := N.iter 10000 (String "z") "".
Arguments full_output : simpl never.

Definition full_communicate (p : unit) : IO unit (string * string) :=
  ret (full_output, "").
Definition answered_get (url : string) : IO unit unit := ret tt.
Definition not_found_status (r : unit) : IO unit unit :=
  fun s => (Raised (ExternalError "404 Client Error: Not Found"), s).

Lemma run_code_marks_full_output_as_truncated_witness :
  run_script unit unit sample_makedirs sample_write_text sample_Popen full_communicate
    "print('z' * 10000, end='')" tt = (Returned (tt, full_output, ""), tt) /\
  len full_output = 10000%Z /\
  run_code unit unit sample_makedirs sample_write_text sample_Popen full_communicate
    sample_returncode "print('z' * 10000, end='')" tt
  = (Returned (JStr (full_output +:+ truncation_note)), tt).
Proof.
  assert (Hran : run_script unit unit sample_makedirs sample_write_text sample_Popen
                   full_communicate "print('z' * 10000, end='')" tt
                 = (Returned (tt, full_output, ""), tt)) by reflexivity.
  assert (Hlen : len full_output = 10000%Z) by (vm_compute; reflexivity).
  split; [exact Hran | split; [exact Hlen |]].
  exact (run_code_marks_full_output_as_truncated unit unit sample_makedirs
           sample_write_text sample_Popen full_communicate sample_returncode
           "print('z' * 10000, end='')" tt tt tt full_output "" Hran Hlen).
Defined.

Lemma run_code_plain_string_has_10030_characters_witness :
  sample_run_script "print('y' * 12000)" tt
    = (Returned (tt, chatty_output, "warning"), tt) /\
  (sample_run_code "print('y' * 12000)" tt).1
    = Returned (JStr (slice_to 10000 chatty_output +:+ truncation_note)) /\
  len (slice_to 10000 chatty_output +:+ truncation_note) = 10030%Z.
Proof.
  assert (Hran : sample_run_script "print('y' * 12000)" tt
                 = (Returned (tt, chatty_output, "warning"), tt)) by reflexivity.
  assert (Hres : (sample_run_code "print('y' * 12000)" tt).1
                 = Returned (JStr (slice_to 10000 chatty_output +:+ truncation_note)))
    by (vm_cast_no_check (eq_refl (sample_run_code "print('y' * 12000)" tt).1)).
  split; [exact Hran | split; [exact Hres |]].
  exact (run_code_plain_string_has_10030_characters unit unit sample_makedirs
           sample_write_text sample_Popen sample_communicate sample_returncode
           "print('y' * 12000)" tt tt tt chatty_output "warning" _ Hran Hres).
Defined.

Lemma get_rendered_html_bounds_the_page_witness :
  sample_render_page "http://x/q1" tt = (Returned "<html></html>", tt) /\
  sample_image_urls_of "http://x/q1" "<html></html>" tt = (Returned [], tt) /\
  exists html,
    get_rendered_html unit sample_render_page sample_image_urls_of "http://x/q1" tt
      = (Returned (JObj [("html", JStr html); ("images", JArr (map JStr []));
                         ("url", JStr "http://x/q1")]), tt) /\
    (len html <= 300027)%Z /\
    ((len "<html></html>" <= 300000)%Z -> html = "<html></html>").
Proof.
  assert (H1 : sample_render_page "http://x/q1" tt = (Returned "<html></html>", tt))
    by reflexivity.
  assert (H2 : sample_image_urls_of "http://x/q1" "<html></html>" tt = (Returned [], tt))
    by reflexivity.
  split; [exact H1 | split; [exact H2 |]].
  exact (get_rendered_html_bounds_the_page unit sample_render_page sample_image_urls_of
           "http://x/q1" "<html></html>" [] tt tt tt H1 H2).
Defined.

Lemma download_file_http_error_writes_nothing_witness :
  answered_get "http://x/gone.csv" tt = (Returned tt, tt) /\
  not_found_status tt tt = (Raised (ExternalError "404 Client Error: Not Found"), tt) /\
  download_file unit unit sample_makedirs answered_get not_found_status
    sample_write_chunks "http://x/gone.csv" "gone.csv" tt
  = (Returned (JStr "Error downloading file: 404 Client Error: Not Found"), tt).
Proof.
  assert (H1 : answered_get "http://x/gone.csv" tt = (Returned tt, tt)) by reflexivity.
  assert (H2 : not_found_status tt tt
               = (Raised (ExternalError "404 Client Error: Not Found"), tt)) by reflexivity.
  split; [exact H1 | split; [exact H2 |]].
  exact (download_file_http_error_writes_nothing unit unit sample_makedirs answered_get
           not_found_status sample_write_chunks "http://x/gone.csv" "gone.csv" tt
           (ExternalError "404 Client Error: Not Found") tt tt tt H1 H2).
Defined.

(** *** tools/run_code.py: [clean_code_formatting] *)

Definition fence : string := "```".

(** [.split("\n", 1)[1]] raises IndexError on a text of one line. *)
Definition clean_code_formatting (source_code : string) : Outcome string :=
  let source_code := strip source_code in
  let opened :=
    if startswith fence source_code then
      match split_first_line source_code with
      | Some (_, others) => Returned others
      | None => Raised IndexError
      end
    else Returned source_code in
  match opened with
  | Raised e => Raised e
  | Returned source_code =>
      let source_code :=
        if endswith fence source_code then before_last_line source_code
        else source_code in
      Returned (strip source_code)
  end.

Lemma one_line_app (a b : string) : one_line (a +:+ b) = one_line a && one_line b.
Proof.
  induction a as [| c a IH]; unfold_app; [reflexivity |].
  now rewrite IH, andb_assoc.
Qed.

(** X1: code with no fence at either end comes back stripped of the
    white space around it, and otherwise as it is. *)
Theorem clean_code_formatting_without_fence :
  forall source_code : string,
    startswith fence (strip source_code) = false ->
    endswith fence (strip source_code) = false ->
    clean_code_formatting source_code = Returned (strip source_code).
Proof.
  intros source_code Hstart Hend. unfold clean_code_formatting.
  cbv zeta. rewrite Hstart, Hend. now rewrite strip_idempotent.
Qed.

Lemma clean_code_formatting_without_fence_witness :
  startswith fence (strip "  print(1)  ") = false /\
  endswith fence (strip "  print(1)  ") = false /\
  clean_code_formatting "  print(1)  " = Returned "print(1)".
Proof.
  assert (H1 : startswith fence (strip "  print(1)  ") = false) by reflexivity.
  assert (H2 : endswith fence (strip "  print(1)  ") = false) by reflexivity.
  split; [exact H1 | split; [exact H2 |]].
  exact (clean_code_formatting_without_fence "  print(1)  " H1 H2).
Defined.

Lemma fenced_block_shape (lang body : string) :
  fence +:+ lang +:+ String newline (body +:+ String newline fence) =
  String "`" (("``" +:+ lang +:+ String newline (body +:+ String newline "``"))
              +:+ String "`" "").
Proof.
  unfold fence.
  repeat (rewrite ?app_assoc_str, ?app_cons_str, ?app_empty_str).
  reflexivity.
Qed.

(** X2: a block fenced on lines of its own, with white space around it
    and any language tag on the opening line, comes back as its body,
    stripped. *)
Theorem clean_code_formatting_fenced_block :
  forall before lang body after : string,
    is_blank before = true -> is_blank after = true -> one_line lang = true ->
    clean_code_formatting
      (before +:+ (fence +:+ lang +:+ String newline (body +:+ String newline fence))
              +:+ after)
    = Returned (strip body).
Proof.
  intros before lang body after Hb Ha Hlang. unfold clean_code_formatting.
  rewrite (strip_ignores_blank_margins before _ after Hb Ha).
  assert (Hstrip : strip (fence +:+ lang +:+ String newline (body +:+ String newline fence))
                   = fence +:+ lang +:+ String newline (body +:+ String newline fence)).
  { rewrite fenced_block_shape. now apply strip_closed. }
  rewrite Hstrip. cbv zeta.
  assert (Hstart : startswith fence
                     (fence +:+ lang +:+ String newline (body +:+ String newline fence)) = true)
    by apply prefix_app.
  rewrite Hstart.
  rewrite <- app_assoc_str.
  rewrite split_first_line_app by (rewrite one_line_app, Hlang; reflexivity).
  change (String newline fence) with (String newline "" +:+ fence).
  rewrite <- app_assoc_str, endswith_app, app_assoc_str.
  change (String newline "" +:+ fence) with (String newline fence).
  now rewrite before_last_line_app.
Qed.

Lemma clean_code_formatting_fenced_block_witness :
  is_blank " " = true /\ is_blank "" = true /\ one_line "python" = true /\
  clean_code_formatting
    (" " +:+ (fence +:+ "python" +:+ String newline ("x = 1 " +:+ String newline fence)) +:+ "")
  = Returned "x = 1".
Proof.
  assert (H1 : is_blank " " = true) by reflexivity.
  assert (H2 : is_blank "" = true) by reflexivity.
  assert (H3 : one_line "python" = true) by reflexivity.
  split; [exact H1 | split; [exact H2 | split; [exact H3 |]]].
  exact (clean_code_formatting_fenced_block " " "python" "x = 1 " "" H1 H2 H3).
Defined.

(** X3: a text that opens with a fence and has no newline makes
    [clean_code_formatting] raise IndexError (the list that
    [split("\n", 1)] returns has no second element). *)
Theorem clean_code_formatting_one_line_fence_raises :
  forall source_code : string,
    startswith fence (strip source_code) = true ->
    one_line (strip source_code) = true ->
    clean_code_formatting source_code = Raised IndexError.
Proof.
  intros source_code Hstart Hline. unfold clean_code_formatting. cbv zeta.
  rewrite Hstart. apply split_first_line_none in Hline. now rewrite Hline.
Qed.

Lemma clean_code_formatting_one_line_fence_raises_witness :
  startswith fence (strip "```print(1)```") = true /\
  one_line (strip "```print(1)```") = true /\
  clean_code_formatting "```print(1)```" = Raised IndexError.
Proof.
  assert (H1 : startswith fence (strip "```print(1)```") = true) by reflexivity.
  assert (H2 : one_line (strip "```print(1)```") = true) by reflexivity.
  split; [exact H1 | split; [exact H2 |]].
  exact (clean_code_formatting_one_line_fence_raises "```print(1)```" H1 H2).
Defined.

(** X4: a closing fence on the last line of code, not on a line of its
    own, is not removed: after the opening line, a body of one line is
    returned as it is, fence included. *)
Theorem clean_code_formatting_keeps_fence_on_code_line :
  forall lang body : string,
    one_line lang = true -> one_line body = true ->
    clean_code_formatting (fence +:+ lang +:+ String newline (body +:+ fence))
    = Returned (strip (body +:+ fence)).
Proof.
  intros lang body Hlang Hbody. unfold clean_code_formatting.
  assert (Hshape : fence +:+ lang +:+ String newline (body +:+ fence) =
                   String "`" (("``" +:+ lang +:+ String newline (body +:+ "``"))
                               +:+ String "`" "")).
  { unfold fence.
    repeat (rewrite ?app_assoc_str, ?app_cons_str, ?app_empty_str). reflexivity. }
  assert (Hstrip : strip (fence +:+ lang +:+ String newline (body +:+ fence))
                   = fence +:+ lang +:+ String newline (body +:+ fence)).
  { rewrite Hshape. now apply strip_closed. }
  rewrite Hstrip. cbv zeta.
  assert (Hstart : startswith fence (fence +:+ lang +:+ String newline (body +:+ fence)) = true)
    by apply prefix_app.
  rewrite Hstart, <- app_assoc_str.
  rewrite split_first_line_app by (rewrite one_line_app, Hlang; reflexivity).
  rewrite endswith_app.
  rewrite before_last_line_one_line; [reflexivity |].
  rewrite one_line_app, Hbody. reflexivity.
Qed.

Lemma clean_code_formatting_keeps_fence_on_code_line_witness :
  one_line "python" = true /\ one_line "print(1)" = true /\
  clean_code_formatting (fence +:+ "python" +:+ String newline ("print(1)" +:+ fence))
  = Returned "print(1)```".
Proof.
  assert (H1 : one_line "python" = true) by reflexivity.
  assert (H2 : one_line "print(1)" = true) by reflexivity.
  split; [exact H1 | split; [exact H2 |]].
  exact (clean_code_formatting_keeps_fence_on_code_line "python" "print(1)" H1 H2).
Defined.

(** X5: whatever [clean_code_formatting] returns has no white space left
    at either end. *)
Theorem clean_code_formatting_result_is_stripped :
  forall source_code cleaned : string,
    clean_code_formatting source_code = Returned cleaned ->
    strip cleaned = cleaned.
Proof.
  intros source_code cleaned. unfold clean_code_formatting. cbv zeta.
  destruct (startswith fence (strip source_code)).
  - destruct (split_first_line (strip source_code)) as [[line others] |]; [| discriminate].
    intros [= <-]. apply strip_idempotent.
  - intros [= <-]. apply strip_idempotent.
Qed.

Lemma clean_code_formatting_result_is_stripped_witness :
  clean_code_formatting "  print(1)  " = Returned "print(1)" /\
  strip "print(1)" = "print(1)".
Proof.
  assert (H : clean_code_formatting "  print(1)  " = Returned "print(1)") by reflexivity.
  split; [exact H |].
  exact (clean_code_formatting_result_is_stripped "  print(1)  " "print(1)" H).
Defined.

End Tools.

(** ** agent.py: messages and routing *)

Module Agent.

(** [msg.type] *)
Inductive MsgType : Type := system | human | ai | tool.

Definition MsgType_eqb (a b : MsgType) : bool :=
  match a, b with
  | system, system | human, human | ai, ai | tool, tool => true
  | _, _ => false
  end.

(** One element of a list-valued message content: a bare string or a
    content block (a dict). *)
Inductive Part : Type :=
| PStr (text : string)
| PDict (block : gmap string JSON).

(** [msg.content]: a plain string or a list of parts. *)
Inductive Content : Type :=
| CStr (text : string)
| CList (parts : list Part).

Record ToolCall : Type := mkToolCall {
  name : string;
  args : JSON;
  id : string
}.

Record Message : Type := mkMessage {
  type : MsgType;
  content : Content;
  tool_calls : list ToolCall;
  response_metadata : gmap string JSON
}.

(** [HumanMessage(content=text)] and the other plain messages. *)
Definition HumanMessage (text : string) : Message :=
  mkMessage human (CStr text) [] ∅.

Definition SystemMessage (text : string) : Message :=
  mkMessage system (CStr text) [] ∅.

(** The names the routing function returns; [END] is the graph's
    terminal node. *)
Inductive Route : Type := handle_malformed | tools | END | agent.

(** [x == "MALFORMED_FUNCTION_CALL"] for a metadata value [x]. *)
Definition is_malformed_code (v : JSON) : bool :=
  match v with
  | JStr s => String.eqb s "MALFORMED_FUNCTION_CALL"
  | _ => false
  end.

(** Step 1 of [determine_next_step]: the two nested [if]s on
    [response_metadata]. *)
Definition malformed (last_message : Message) : bool :=
  match response_metadata last_message !! "finish_reason" with
  | Some v => is_malformed_code v
  | None => false
  end.

(** Step 3 of [determine_next_step], reached with no malformed reason and
    no tool call.  [.strip()] on a ["text"] entry that is not a string
    raises AttributeError. *)
Definition end_check (message_content : Content) : Outcome Route :=
  match message_content with
  | CStr s =>
      if String.eqb (strip s) "END" then Returned END else Returned agent
  | CList (PDict block :: _) =>
      match default (JStr "") (block !! "text") with
      | JStr t =>
          if String.eqb (strip t) "END" then Returned END else Returned agent
      | _ => Raised AttributeError
      end
  | CList _ => Returned agent
  end.

Definition determine_next_step (messages : list Message) : Outcome Route :=
  match last messages with
  | None => Raised IndexError
  | Some last_message =>
      if malformed last_message then Returned handle_malformed
      else
        match tool_calls last_message with
        | _ :: _ => Returned tools
        | [] => end_check (content last_message)
        end
  end.

(** The flattened text of a message content, in the words of the
    specification: the string itself, or the texts of all the parts of
    the list put together.  It is used only to state the specification's
    reading of the routing rule; the code never calls it. *)
Definition part_text (p : Part) : string :=
  match p with
  | PStr s => s
  | PDict block =>
      match block !! "text" with
      | Some (JStr t) => t
      | _ => ""
      end
  end.

Definition spec_flattened_text (c : Content) : string :=
  match c with
  | CStr s => s
  | CList parts => String.concat "" (map part_text parts)
  end.

(** *** Routing theorems *)

Lemma determine_next_step_snoc (history : list Message) (m : Message) :
  determine_next_step (history ++ [m]) =
    if malformed m then Returned handle_malformed
    else match tool_calls m with
         | _ :: _ => Returned tools
         | [] => end_check (content m)
         end.
Proof.
  unfold determine_next_step. now rewrite last_snoc.
Qed.

(** The completion reason of [m] is the malformed-function-call code. *)
Definition has_malformed_reason (m : Message) : Prop :=
  response_metadata m !! "finish_reason" = Some (JStr "MALFORMED_FUNCTION_CALL").

Lemma is_malformed_code_true (v : JSON) :
  is_malformed_code v = true <-> v = JStr "MALFORMED_FUNCTION_CALL".
Proof.
  destruct v; simpl; try (split; [discriminate | intros [=]]).
  rewrite String.eqb_eq. split; [now intros -> | now intros [= ->]].
Qed.

Lemma malformed_true (m : Message) :
  malformed m = true <-> has_malformed_reason m.
Proof.
  unfold malformed, has_malformed_reason.
  destruct (response_metadata m !! "finish_reason") as [v|].
  - rewrite is_malformed_code_true. split; [now intros -> | now intros [= ->]].
  - split; discriminate.
Qed.

Lemma malformed_false (m : Message) :
  malformed m = false <-> ~ has_malformed_reason m.
Proof.
  rewrite <- malformed_true. destruct (malformed m); split; congruence.
Qed.

(** C4: a latest message whose completion reason is the
    malformed-function-call code is routed to the repair node
    ([handle_malformed]), never to [tools] or [END], whatever tool calls
    or text it carries; a latest message with another reason (or none)
    and at least one tool call is routed to [tools]. *)
Theorem malformed_goes_to_repair_else_tool_calls_to_tools :
  forall (history : list Message) (m : Message),
    (has_malformed_reason m ->
       determine_next_step (history ++ [m]) = Returned handle_malformed /\
       determine_next_step (history ++ [m]) <> Returned tools /\
       determine_next_step (history ++ [m]) <> Returned END) /\
    (~ has_malformed_reason m -> tool_calls m <> [] ->
       determine_next_step (history ++ [m]) = Returned tools).
Proof.
  intros history m. rewrite determine_next_step_snoc. split.
  - intros Hm. apply malformed_true in Hm. rewrite Hm.
    repeat split; discriminate.
  - intros Hm Hcalls. apply malformed_false in Hm. rewrite Hm.
    destruct (tool_calls m); [contradiction | reflexivity].
Qed.

(** A malformed response that also asks for a tool and says END, and a
    well-formed response that asks for a tool. *)
Definition submit_call : ToolCall :=
  mkToolCall "post_request" (JObj [("url", JStr "http://x/submit")]) "call_1".

Definition malformed_reply : Message :=
  mkMessage ai (CStr "END") [submit_call]
    {[ "finish_reason" := JStr "MALFORMED_FUNCTION_CALL" ]}.

Definition tool_reply : Message :=
  mkMessage ai (CStr "END") [submit_call] {[ "finish_reason" := JStr "STOP" ]}.

Lemma malformed_goes_to_repair_else_tool_calls_to_tools_witness :
  (has_malformed_reason malformed_reply /\
   determine_next_step ([] ++ [malformed_reply]) = Returned handle_malformed) /\
  (~ has_malformed_reason tool_reply /\ tool_calls tool_reply <> [] /\
   determine_next_step ([] ++ [tool_reply]) = Returned tools).
Proof.
  assert (H1 : has_malformed_reason malformed_reply) by (vm_compute; reflexivity).
  assert (H2 : ~ has_malformed_reason tool_reply) by (vm_compute; discriminate).
  assert (H3 : tool_calls tool_reply <> []) by (simpl; discriminate).
  split.
  - split; [exact H1 |].
    exact (proj1 (proj1 (malformed_goes_to_repair_else_tool_calls_to_tools
                           [] malformed_reply) H1)).
  - split; [exact H2 | split; [exact H3 |]].
    exact (proj2 (malformed_goes_to_repair_else_tool_calls_to_tools
                    [] tool_reply) H2 H3).
Defined.

(** *** The END route *)

(** The content test of step 3 succeeds: the content is a string that
    strips to END, or a list whose first part is a block whose ["text"]
    entry (the empty string when absent) strips to END. *)
Definition says_end (c : Content) : Prop :=
  (exists s, c = CStr s /\ strip s = "END") \/
  (exists block rest t,
      c = CList (PDict block :: rest) /\
      default (JStr "") (block !! "text") = JStr t /\ strip t = "END").

(** The ["text"] entry of a leading block, when there is one, is a
    string (so that [.strip()] does not raise). *)
Definition text_entry_is_str (c : Content) : Prop :=
  forall block rest,
    c = CList (PDict block :: rest) ->
    exists t, default (JStr "") (block !! "text") = JStr t.

Lemma end_check_END (c : Content) :
  end_check c = Returned END <-> says_end c.
Proof.
  unfold says_end. split.
  - destruct c as [s | [ | [s | block] rest]]; simpl; try discriminate.
    + destruct (String.eqb (strip s) "END") eqn:E; [| discriminate].
      apply String.eqb_eq in E. intros _. left. eauto.
    + destruct (default (JStr "") (block !! "text")) as [ | | | t | | ] eqn:D;
        try discriminate.
      destruct (String.eqb (strip t) "END") eqn:E; [| discriminate].
      apply String.eqb_eq in E. intros _. right. exists block, rest, t. auto.
  - intros [(s & -> & E) | (block & rest & t & -> & D & E)]; simpl.
    + apply String.eqb_eq in E. now rewrite E.
    + rewrite D. apply String.eqb_eq in E. now rewrite E.
Qed.

Lemma end_check_agent (c : Content) :
  text_entry_is_str c -> ~ says_end c -> end_check c = Returned agent.
Proof.
  intros Hstr Hno.
  destruct (end_check c) as [[ | | | ] | e] eqn:E; try reflexivity.
  - destruct c as [s | [ | [s | block] rest]]; simpl in E; try discriminate;
      repeat match type of E with
             | context [match ?x with _ => _ end] => destruct x; try discriminate
             end.
  - destruct c as [s | [ | [s | block] rest]]; simpl in E; try discriminate;
      repeat match type of E with
             | context [match ?x with _ => _ end] => destruct x; try discriminate
             end.
  - apply end_check_END in E. contradiction.
  - exfalso.
    destruct c as [s | [ | [s | block] rest]]; simpl in E; try discriminate.
    + destruct (String.eqb (strip s) "END"); discriminate.
    + destruct (Hstr block rest eq_refl) as [t Ht]. rewrite Ht in E.
      destruct (String.eqb (strip t) "END"); discriminate.
Qed.

(** C1 (as amended): the route is [END] exactly when the latest message
    has no malformed-call reason, carries no tool call, and its content
    is a string that strips to END or a list whose first part is a block
    whose text strips to END; every other message with no malformed-call
    reason and no tool call (the text entry of a leading block, if any,
    being a string) is routed back to [agent]. *)
Theorem end_route_iff_unobstructed_end_text :
  forall (history : list Message) (m : Message),
    (determine_next_step (history ++ [m]) = Returned END <->
       ~ has_malformed_reason m /\ tool_calls m = [] /\ says_end (content m)) /\
    (~ has_malformed_reason m -> tool_calls m = [] ->
     text_entry_is_str (content m) -> ~ says_end (content m) ->
       determine_next_step (history ++ [m]) = Returned agent).
Proof.
  intros history m. rewrite determine_next_step_snoc. split; [split |].
  - destruct (malformed m) eqn:Hm; [discriminate |].
    apply malformed_false in Hm.
    destruct (tool_calls m); [| discriminate].
    intros E. apply end_check_END in E. auto.
  - intros (Hm & Hcalls & Hend). apply malformed_false in Hm.
    rewrite Hm, Hcalls. now apply end_check_END.
  - intros Hm Hcalls Hstr Hno. apply malformed_false in Hm.
    rewrite Hm, Hcalls. now apply end_check_agent.
Qed.

(** A plain turn that is not the END token. *)
Definition plain_reply : Message :=
  mkMessage ai (CList [PDict {[ "type" := JStr "text"; "text" := JStr "Working on it" ]}])
    [] {[ "finish_reason" := JStr "STOP" ]}.

Lemma end_route_iff_unobstructed_end_text_witness :
  ~ has_malformed_reason plain_reply /\ tool_calls plain_reply = [] /\
  text_entry_is_str (content plain_reply) /\ ~ says_end (content plain_reply) /\
  determine_next_step ([] ++ [plain_reply]) = Returned agent.
Proof.
  assert (H1 : ~ has_malformed_reason plain_reply) by (vm_compute; discriminate).
  assert (H2 : tool_calls plain_reply = []) by reflexivity.
  assert (H3 : text_entry_is_str (content plain_reply)).
  { intros block rest [= <- <-]. exists "Working on it". vm_compute. reflexivity. }
  assert (H4 : ~ says_end (content plain_reply)).
  { intros [(s & [=] & _) | (block & rest & t & [= <- <-] & D & E)].
    vm_compute in D. injection D as <-. vm_compute in E. discriminate. }
  repeat (split; [assumption |]).
  exact (proj2 (end_route_iff_unobstructed_end_text [] plain_reply) H1 H2 H3 H4).
Defined.

(** C1 (as stated) fails: [tool_reply] has the flattened text END and is
    routed to [tools], not to [END]. *)
Lemma end_text_with_tool_call_is_not_done :
  strip (spec_flattened_text (content tool_reply)) = "END" /\
  determine_next_step [tool_reply] = Returned tools /\
  ~ (determine_next_step [tool_reply] = Returned END <->
     strip (spec_flattened_text (content tool_reply)) = "END").
Proof.
  assert (H1 : strip (spec_flattened_text (content tool_reply)) = "END")
    by (vm_compute; reflexivity).
  assert (H2 : determine_next_step [tool_reply] = Returned tools)
    by (vm_compute; reflexivity).
  split; [exact H1 | split; [exact H2 |]].
  intros [_ Hback]. specialize (Hback H1). rewrite H2 in Hback. discriminate.
Qed.

(** On the two usual shapes of a reply, a string or a list of one block,
    the text the code tests is the flattened text. *)
Lemma says_end_flattened_on_usual_shapes (c : Content) :
  text_entry_is_str c ->
  (exists s, c = CStr s) \/ (exists block, c = CList [PDict block]) ->
  (says_end c <-> strip (spec_flattened_text c) = "END").
Proof.
  intros Hstr [[s ->] | [block ->]]; unfold says_end; simpl.
  - split.
    + intros [(s' & [= <-] & E) | (b & r & t & [=] & _)]. exact E.
    + intros E. left. eauto.
  - destruct (Hstr block [] eq_refl) as [t Ht].
    assert (Hpt : (match block !! "text" with Some (JStr t') => t' | _ => "" end) = t).
    { destruct (block !! "text") as [v|]; simpl in Ht; [subst v | injection Ht as <-]; reflexivity. }
    rewrite Hpt.
    split.
    + intros [(s' & [=] & _) | (b & r & t' & [= <- <-] & D & E)].
      rewrite Ht in D. injection D as <-. exact E.
    + intros E. right. exists block, [], t. auto.
Qed.

(** ** agent.py: the agent node *)

Definition MAX_RECURSION_DEPTH : nat := Z.to_nat 5000.
Arguments MAX_RECURSION_DEPTH : simpl never.
Definition TOKEN_LIMIT : Z := 60000.

(** [str(x)] for the value of [os.getenv]. *)
Definition str_of_env (x : option string) : string := default "None" x.

(** The double quote character, as a string. *)
Definition double_quote : string := String "034"%char EmptyString.

(** The f-string [QUIZ_SYSTEM_PROMPT], evaluated with the values of
    [EMAIL] and [SECRET] at import time. *)
Definition QUIZ_SYSTEM_PROMPT (USER_EMAIL USER_SECRET : option string) : string :=
  String.concat "" [
"
You are an autonomous quiz-solving agent.

Your job is to:
1. Load each quiz page from the given URL.
2. Extract instructions, parameters, and submit endpoint.
3. Solve tasks exactly.
4. Submit answers ONLY to the correct endpoint.
5. Follow new URLs until none remain, then output END.

Rules:
- For base64 generation of an image NEVER use your own code, always use the "; double_quote; "encode_image_to_base64"; double_quote; " tool that's provided
- Never hallucinate URLs or fields.
- Never shorten endpoints.
- Always inspect server response.
- Never stop early.
- Use tools for HTML, downloading, rendering, OCR, or running code.
- Include:
    email = "; str_of_env USER_EMAIL; "
    secret = "; str_of_env USER_SECRET; "
"].

Definition timeout_instruction : string :=
"
            You have exceeded the time limit for this task (over 180 seconds).
            Immediately call the `post_request` tool and submit a WRONG answer for the CURRENT quiz.
            ".

Definition timeout_message : Message := HumanMessage timeout_instruction.

(** The reminder built when the trimmed context has no human message. *)
Definition context_reminder (current_quiz_url : string) : Message :=
  HumanMessage
    ("Context cleared due to length. Continue processing URL: " +:+ current_quiz_url).

(** The update [handle_json_error_node] returns: one message in the user
    role. *)
Definition handle_json_error_node (state : list Message) : list Message :=
  [HumanMessage "SYSTEM ERROR: Your last tool call was Malformed (Invalid JSON). Please rewrite the code and try again. Ensure you escape newlines and quotes correctly inside the JSON."].

(** What the node reads from the process: the clock, [os.environ] and
    the timing store of [shared_store], whose values are the floats that
    [float(previous_time)] leaves as they are. *)
Record Process : Type := mkProcess {
  time_now : Q;
  environ : gmap string string;
  url_time : gmap string Q
}.

(** The store the node runs in.  [heap] holds the Python list objects of
    messages by address, so that an in-place [append] is seen through
    every reference to the same list; [gateway_log] records the context
    of every [language_model.invoke] issued so far. *)
Record World : Type := mkWorld {
  process : Process;
  heap : list (list Message);
  gateway_log : list (list Message)
}.

(** A new list object. *)
Definition alloc (value : list Message) (w : World) : nat * World :=
  (length (heap w), mkWorld (process w) (heap w ++ [value]) (gateway_log w)).

(** The value of the list object at an address (an address that was
    never allocated does not occur). *)
Definition deref (address : nat) (w : World) : list Message :=
  default [] (heap w !! address).

(** [lst.append(x)], in place. *)
Definition append_at (address : nat) (x : Message) (w : World) : World :=
  mkWorld (process w) (alter (fun l => l ++ [x]) address (heap w)) (gateway_log w).

Definition is_type (t : MsgType) (m : Message) : bool := MsgType_eqb (type m) t.

(** [url_time.get(os.getenv("url"))] *)
Definition recorded_start (p : Process) : option Q :=
  environ p !! "url" ≫= (fun url => url_time p !! url).

(** [os.getenv("offset", "0")] *)
Definition time_offset (p : Process) : string :=
  default "0" (environ p !! "offset").

Section Node.

(** [language_model.invoke]: the answer to the call number [n] (counted
    from 0) on a context, or the exception the call raises. *)
Variable language_model : nat -> list Message -> Outcome Message.

(** The token count the model reports for a list of messages. *)
Variable token_counter : list Message -> Z.

(** [float(s)]; [None] when it raises ValueError. *)
Variable float : string -> option Float.

(** [x - y] on two finite doubles, as the processor computes it: the
    double nearest to the difference, an infinity on overflow. *)
Variable fsub : Q -> Q -> Float.

Definition invoke (context : list Message) (w : World) : Outcome Message * World :=
  (language_model (length (gateway_log w)) context,
   mkWorld (process w) (heap w) (gateway_log w ++ [context])).

(** *** [trim_messages]

    The helpers of the model of [trim_messages] below: the search for
    the messages that fit, and the cut back to a message type. *)

(** The largest [k' <= k] such that the first [k'] messages fit in
    [max_tokens] (0 when none does). *)
Fixpoint longest_fit (messages : list Message) (max_tokens : Z) (k : nat) : nat :=
  match k with
  | O => O
  | S k' =>
      if (token_counter (take k messages) <=? max_tokens)%Z then k
      else longest_fit messages max_tokens k'
  end.

(** [while idx > 0 and messages[idx - 1] is not of type t: idx -= 1] *)
Fixpoint back_to_type (t : MsgType) (messages : list Message) (idx : nat) : nat :=
  match idx with
  | O => O
  | S i =>
      match messages !! i with
      | Some m => if is_type t m then idx else back_to_type t messages i
      | None => back_to_type t messages i
      end
  end.

Definition first_max_tokens (messages : list Message) (max_tokens : Z)
    (end_on : MsgType) : list Message :=
  take (back_to_type end_on messages
          (longest_fit messages max_tokens (length messages))) messages.

(** Modelled from the spec: [trim_messages] belongs to the
    langchain_core library and is not among the sources.  Sections 3 and
    4.2, for the arguments the node passes ([strategy="last"],
    [include_system=True], [start_on="human"], [max_tokens=TOKEN_LIMIT],
    the model as token counter): the leading system message is always
    kept; of the other messages the most recent ones that fit in what is
    left of the budget are kept, cut back to start on a human message.
    The result is a new list. *)
Definition trim_messages (messages : list Message) : list Message :=
  match messages with
  | [] => []
  | first :: others =>
      if is_type system first then
        let remaining_tokens := Z.max 0 (TOKEN_LIMIT - token_counter [first]) in
        first :: reverse (first_max_tokens (reverse others) remaining_tokens human)
      else
        reverse (first_max_tokens (reverse messages) TOKEN_LIMIT human)
  end.

(** *** [quiz_processing_node] *)

(** [current_time - float(time_offset)]: the second operand may be an
    infinity or NaN. *)
Definition minus_float (current_time : Q) (offset : Float) : Float :=
  match offset with
  | Finite value => fsub current_time value
  | Infinity => NegInfinity
  | NegInfinity => Infinity
  | NaN => NaN
  end.

(** The test of the deadline [if], evaluated left to right:
    [time_difference >= 180 or (time_offset != "0" and
    current_time - float(time_offset) > 90)]. *)
Definition deadline_exceeded (current_time previous_time : Q) (time_offset : string)
    : Outcome bool :=
  let time_difference := fsub current_time previous_time in
  if float_ge time_difference 180 then Returned true
  else if String.eqb time_offset "0" then Returned false
  else
    match float time_offset with
    | Some offset => Returned (float_gt (minus_float current_time offset) 90)
    | None => Raised ValueError
    end.

(** The part of the node after the time handling: trim, remind if no
    human message is left, invoke. [state] is the address of
    [state["messages"]]. *)
Definition trim_and_invoke (state : nat) (w : World) : Outcome (list Message) * World :=
  let (trimmed_context, w1) := alloc (trim_messages (deref state w)) w in
  let has_human_message := existsb (is_type human) (deref trimmed_context w1) in
  let w2 :=
    if has_human_message then w1
    else
      let current_quiz_url := default "Unknown URL" (environ (process w1) !! "url") in
      append_at trimmed_context (context_reminder current_quiz_url) w1 in
  match invoke (deref trimmed_context w2) w2 with
  | (Returned result, w3) => (Returned [result], w3)
  | (Raised e, w3) => (Raised e, w3)
  end.

(** The deadline branch: invoke on the whole conversation followed by
    the timeout message, a new list. *)
Definition override_and_invoke (state : nat) (w : World) : Outcome (list Message) * World :=
  match invoke (deref state w ++ [timeout_message]) w with
  | (Returned result, w1) => (Returned [result], w1)
  | (Raised e, w1) => (Raised e, w1)
  end.

(** The node returns the update of [messages]; [state] is the address of
    the list [state["messages"]]. *)
Definition quiz_processing_node (state : nat) (w : World) : Outcome (list Message) * World :=
  let current_time := time_now (process w) in
  let previous_time := recorded_start (process w) in
  let time_offset := time_offset (process w) in
  match previous_time with
  | Some previous_time =>
      match deadline_exceeded current_time previous_time time_offset with
      | Raised e => (Raised e, w)
      | Returned true => override_and_invoke state w
      | Returned false => trim_and_invoke state w
      end
  | None => trim_and_invoke state w
  end.

End Node.

(** ** agent.py: the graph and its runner *)

(** How a run ends: the route [END] was taken, a node raised, or the
    superstep budget ran out (the runtime raises GraphRecursionError). *)
Inductive Ending : Type :=
| Done
| NodeRaised (e : Exn)
| OutOfSteps.

(** A finished run: how it ended, the stored conversation at the end,
    the nodes entered in order, each with the stored conversation it was
    entered with, and the store at the end. *)
Record Run : Type := mkRun {
  ending : Ending;
  conversation : list Message;
  trace : list (Route * list Message);
  final : World
}.

(** Modelled from the spec: the reducer [add_messages] of the
    [messages] channel belongs to the LangGraph library.  Section 4.2,
    step 4: the update of a node is appended to the stored conversation
    (the messages of an update carry fresh identifiers). *)
Definition add_messages (left right : list Message) : list Message := left ++ right.

Definition set_time (now : Q) (w : World) : World :=
  mkWorld (mkProcess now (environ (process w)) (url_time (process w)))
          (heap w) (gateway_log w).

Definition set_process (p : Process) (w : World) : World :=
  mkWorld p (heap w) (gateway_log w).

Section Graph.

Variable language_model : nat -> list Message -> Outcome Message.
Variable token_counter : list Message -> Z.
Variable float : string -> option Float.
Variable fsub : Q -> Q -> Float.

(** The prebuilt [ToolNode(AVAILABLE_TOOLS)] at superstep [k]: it runs
    the tool calls of the last message and returns the tool messages;
    the tools may change the process state. *)
Variable tool_node : nat -> Process -> list Message -> Outcome (list Message) * Process.

(** What [time.time()] returns during superstep [k]. *)
Variable clock : nat -> Q.

Variables USER_EMAIL USER_SECRET : option string.

(** The node "agent" on the channel [messages]: the node runs on the
    list object of the channel, the channel value is read back and
    reduced with the update. *)
Definition agent_node_step (k : nat) (messages : list Message) (w : World)
    : Outcome (list Message) * World :=
  let (state, w1) := alloc messages (set_time (clock k) w) in
  match quiz_processing_node language_model token_counter float fsub state w1 with
  | (Raised e, w2) => (Raised e, w2)
  | (Returned update, w2) => (Returned (add_messages (deref state w2) update), w2)
  end.

(** One superstep of the node "agent": the node, then the conditional
    edge picks the next node. *)
Definition agent_superstep (k : nat) (messages : list Message) (w : World)
    : Outcome (list Message * Route) * World :=
  match agent_node_step k messages w with
  | (Raised e, w') => (Raised e, w')
  | (Returned messages', w') =>
      match determine_next_step messages' with
      | Raised e => (Raised e, w')
      | Returned next => (Returned (messages', next), w')
      end
  end.

(** One superstep of the graph of [workflow_graph]: the edges from
    "tools" and from "handle_malformed" lead to "agent". *)
Definition superstep (k : nat) (node : Route) (messages : list Message) (w : World)
    : Outcome (list Message * Route) * World :=
  match node with
  | agent => agent_superstep k messages w
  | tools =>
      match tool_node k (process w) messages with
      | (Raised e, p) => (Raised e, set_process p w)
      | (Returned update, p) =>
          (Returned (add_messages messages update, agent), set_process p w)
      end
  | handle_malformed =>
      (Returned (add_messages messages (handle_json_error_node messages), agent), w)
  | END => (Returned (messages, END), w)
  end.

(** Modelled from the spec: the graph runtime behind
    [compiled_app.invoke] (LangGraph) is not part of the sources.  It
    runs the supersteps in sequence from the current node and stops at
    [END]; [recursion_limit] is the ceiling of section 4.1: at most that
    many supersteps run, and a run that needs one more is aborted with an
    error. *)
Fixpoint run_graph (recursion_limit k : nat) (node : Route)
    (messages : list Message) (w : World) : Run :=
  match node with
  | END => mkRun Done messages [] w
  | _ =>
      match recursion_limit with
      | O => mkRun OutOfSteps messages [] w
      | S remaining =>
          match superstep k node messages w with
          | (Raised e, w') => mkRun (NodeRaised e) messages [(node, messages)] w'
          | (Returned (messages', next), w') =>
              let rest := run_graph remaining (S k) next messages' w' in
              mkRun (ending rest) (conversation rest)
                    ((node, messages) :: trace rest) (final rest)
          end
      end
  end.

Definition initial_message_stack (quiz_url : string) : list Message :=
  [SystemMessage (QUIZ_SYSTEM_PROMPT USER_EMAIL USER_SECRET); HumanMessage quiz_url].

(** [run_agent]: the edge from [START] enters "agent". *)
Definition run_agent (quiz_url : string) (w : World) : Run :=
  run_graph MAX_RECURSION_DEPTH 0 agent (initial_message_stack quiz_url) w.

End Graph.

(** ** Properties of the agent node *)

(** *** The store *)

Lemma deref_alloc_new (value : list Message) (w : World) :
  deref (alloc value w).1 (alloc value w).2 = value.
Proof.
  unfold deref, alloc. simpl. now rewrite list_lookup_middle.
Qed.

Lemma deref_alloc_old (value : list Message) (w : World) (a : nat) :
  a < length (heap w) -> deref a (alloc value w).2 = deref a w.
Proof.
  intros Ha. unfold deref, alloc. simpl. now rewrite lookup_app_l.
Qed.

Lemma deref_append_at_other (a b : nat) (x : Message) (w : World) :
  a <> b -> deref a (append_at b x w) = deref a w.
Proof.
  intros Hab. unfold deref, append_at. simpl.
  rewrite list_lookup_alter_ne; [reflexivity | congruence].
Qed.

Lemma deref_append_at_same (a : nat) (x : Message) (w : World) :
  a < length (heap w) -> deref a (append_at a x w) = deref a w ++ [x].
Proof.
  intros Ha. unfold deref, append_at. simpl.
  rewrite list_lookup_alter_eq.
  destruct (lookup_lt_is_Some_2 (heap w) a Ha) as [l Hl]. now rewrite Hl.
Qed.

(** *** The context of the normal path *)

(** The context the node hands to the model when the deadline branch is
    not taken: the trimmed conversation, followed by the reminder of the
    current URL when no human message is left in it. *)
Definition transient_view (token_counter : list Message -> Z)
    (messages : list Message) (p : Process) : list Message :=
  let trimmed := trim_messages token_counter messages in
  if existsb (is_type human) trimmed then trimmed
  else trimmed ++ [context_reminder (default "Unknown URL" (environ p !! "url"))].

Section NodeFacts.

Variable language_model : nat -> list Message -> Outcome Message.
Variable token_counter : list Message -> Z.
Variable float : string -> option Float.
Variable fsub : Q -> Q -> Float.

Local Abbreviation node := (quiz_processing_node language_model token_counter float fsub).
Local Abbreviation normal_path := (trim_and_invoke language_model token_counter).
Local Abbreviation deadline_path := (override_and_invoke language_model).

(** The update of a node run: one message, the answer of the model. *)
Definition answer_update (answer : Outcome Message) : Outcome (list Message) :=
  match answer with
  | Returned result => Returned [result]
  | Raised e => Raised e
  end.

Lemma trim_and_invoke_spec (state : nat) (w : World) :
  state < length (heap w) ->
  let view := transient_view token_counter (deref state w) (process w) in
  let w' := (normal_path state w).2 in
  (normal_path state w).1 = answer_update (language_model (length (gateway_log w)) view) /\
  gateway_log w' = gateway_log w ++ [view] /\
  process w' = process w /\
  deref state w' = deref state w /\
  deref (length (heap w)) w' = view /\
  length (heap w') = S (length (heap w)).
Proof.
  intros Hstate view w'. subst view w'.
  unfold trim_and_invoke, transient_view.
  set (trimmed := trim_messages token_counter (deref state w)).
  pose proof (deref_alloc_new trimmed w) as Hnew.
  pose proof (deref_alloc_old trimmed w state Hstate) as Hold.
  destruct (alloc trimmed w) as [address w1] eqn:Ealloc. simpl in Hnew, Hold.
  assert (Haddr : address = length (heap w)) by (unfold alloc in Ealloc; congruence).
  assert (Hproc : process w1 = process w) by (unfold alloc in Ealloc; now inversion Ealloc).
  assert (Hlog : gateway_log w1 = gateway_log w) by (unfold alloc in Ealloc; now inversion Ealloc).
  assert (Hlen : length (heap w1) = S (length (heap w))).
  { unfold alloc in Ealloc. inversion Ealloc. simpl. rewrite length_app. simpl. lia. }
  rewrite Hnew.
  destruct (existsb (is_type human) trimmed) eqn:Ehuman.
  - unfold invoke. rewrite Hnew, Hlog.
    destruct (language_model (length (gateway_log w)) trimmed); simpl;
      rewrite ?Hlog, ?Hproc; subst address; repeat split; auto.
  - set (reminder := context_reminder _).
    assert (Hview : deref address (append_at address reminder w1) = trimmed ++ [reminder]).
    { rewrite deref_append_at_same by lia. now rewrite Hnew. }
    assert (Hkeep : deref state (append_at address reminder w1) = deref state w).
    { rewrite deref_append_at_other by lia. exact Hold. }
    unfold invoke. rewrite Hview. simpl gateway_log. rewrite Hlog.
    subst reminder. rewrite Hproc in *.
    destruct (language_model (length (gateway_log w)) _); simpl;
      rewrite ?Hlog, ?Hproc; subst address; repeat split; auto;
      unfold append_at; simpl; now rewrite ?length_alter.
Qed.

Lemma override_and_invoke_spec (state : nat) (w : World) :
  let context := deref state w ++ [timeout_message] in
  let w' := (deadline_path state w).2 in
  (deadline_path state w).1 =
    answer_update (language_model (length (gateway_log w)) context) /\
  gateway_log w' = gateway_log w ++ [context] /\
  process w' = process w /\
  heap w' = heap w.
Proof.
  unfold override_and_invoke, invoke.
  destruct (language_model _ _); simpl; auto.
Qed.

(** Whatever path the node takes, the list object of the stored
    conversation and the process state are as before, and at most one
    call went to the model. *)
Lemma quiz_processing_node_frame (state : nat) (w : World) :
  state < length (heap w) ->
  let w' := (node state w).2 in
  deref state w' = deref state w /\
  process w' = process w /\
  (gateway_log w' = gateway_log w \/ exists context, gateway_log w' = gateway_log w ++ [context]).
Proof.
  intros Hstate. unfold quiz_processing_node.
  pose proof (trim_and_invoke_spec state w Hstate) as (_ & Hlog & Hproc & Hkeep & _).
  pose proof (override_and_invoke_spec state w) as (_ & Hlog' & Hproc' & Hheap').
  destruct (recorded_start (process w)) as [previous_time|]; simpl.
  - destruct (deadline_exceeded _ _ _ _ _) as [[|]|e]; simpl.
    + repeat split; [unfold deref; now rewrite Hheap' | exact Hproc' | eauto].
    + repeat split; eauto.
    + auto.
  - repeat split; eauto.
Qed.

End NodeFacts.

(** ** Properties of one agent step *)

(** The outcome of the time handling of the node: [Returned true] when
    the deadline branch is taken. *)
Definition deadline_check (float : string -> option Float) (fsub : Q -> Q -> Float)
    (p : Process) : Outcome bool :=
  match recorded_start p with
  | Some previous_time =>
      deadline_exceeded float fsub (time_now p) previous_time (time_offset p)
  | None => Returned false
  end.

Section StepFacts.

Variable language_model : nat -> list Message -> Outcome Message.
Variable token_counter : list Message -> Z.
Variable float : string -> option Float.
Variable fsub : Q -> Q -> Float.
Variable clock : nat -> Q.

Local Abbreviation agent_step := (agent_node_step language_model token_counter float fsub clock).

Lemma agent_step_normal (k : nat) (messages : list Message) (w : World) :
  let p := process (set_time (clock k) w) in
  let view := transient_view token_counter messages p in
  let w' := (agent_step k messages w).2 in
  deadline_check float fsub p = Returned false ->
  (agent_step k messages w).1 =
    match language_model (length (gateway_log w)) view with
    | Returned result => Returned (messages ++ [result])
    | Raised e => Raised e
    end /\
  gateway_log w' = gateway_log w ++ [view] /\
  deref (length (heap w)) w' = messages /\
  deref (S (length (heap w))) w' = view /\
  process w' = p.
Proof.
  intros p view w' Hcheck. subst w'. unfold agent_node_step.
  pose proof (deref_alloc_new messages (set_time (clock k) w)) as Hnew.
  destruct (alloc messages (set_time (clock k) w)) as [state w1] eqn:Ealloc.
  simpl in Hnew.
  assert (Hstate : state = length (heap w)) by (unfold alloc in Ealloc; simpl in Ealloc; congruence).
  assert (Hlen : length (heap w1) = S (length (heap w))).
  { unfold alloc in Ealloc. inversion Ealloc. simpl. rewrite length_app. simpl. lia. }
  assert (Hproc : process w1 = p) by (unfold alloc in Ealloc; now inversion Ealloc).
  assert (Hlog : gateway_log w1 = gateway_log w) by (unfold alloc in Ealloc; now inversion Ealloc).
  assert (Hpath : quiz_processing_node language_model token_counter float fsub state w1 =
                  trim_and_invoke language_model token_counter state w1).
  { unfold quiz_processing_node. unfold deadline_check in Hcheck. rewrite Hproc.
    destruct (recorded_start p); [now rewrite Hcheck | reflexivity]. }
  rewrite Hpath.
  destruct (trim_and_invoke_spec language_model token_counter state w1)
    as (Hres & Hlog' & Hproc' & Hkeep & Hview & _); [lia |].
  rewrite Hnew, Hproc, Hlog in *. fold view in Hres, Hlog', Hview.
  destruct (trim_and_invoke language_model token_counter state w1) as [res w2].
  simpl in *. rewrite Hlen in Hview. subst state.
  destruct (language_model (length (gateway_log w)) view); simpl in Hres; subst res;
    simpl; rewrite ?Hkeep; repeat split; auto; congruence.
Qed.

Lemma agent_step_deadline (k : nat) (messages : list Message) (w : World) :
  let p := process (set_time (clock k) w) in
  let context := messages ++ [timeout_message] in
  let w' := (agent_step k messages w).2 in
  deadline_check float fsub p = Returned true ->
  (agent_step k messages w).1 =
    match language_model (length (gateway_log w)) context with
    | Returned result => Returned (messages ++ [result])
    | Raised e => Raised e
    end /\
  gateway_log w' = gateway_log w ++ [context] /\
  heap w' = heap w ++ [messages] /\
  process w' = p.
Proof.
  intros p context w' Hcheck. subst w'. unfold agent_node_step.
  pose proof (deref_alloc_new messages (set_time (clock k) w)) as Hnew.
  destruct (alloc messages (set_time (clock k) w)) as [state w1] eqn:Ealloc.
  simpl in Hnew.
  assert (Hheap : heap w1 = heap w ++ [messages]) by (unfold alloc in Ealloc; now inversion Ealloc).
  assert (Hproc : process w1 = p) by (unfold alloc in Ealloc; now inversion Ealloc).
  assert (Hlog : gateway_log w1 = gateway_log w) by (unfold alloc in Ealloc; now inversion Ealloc).
  assert (Hpath : quiz_processing_node language_model token_counter float fsub state w1 =
                  override_and_invoke language_model state w1).
  { unfold quiz_processing_node. unfold deadline_check in Hcheck. rewrite Hproc.
    destruct (recorded_start p); [now rewrite Hcheck | discriminate]. }
  rewrite Hpath.
  destruct (override_and_invoke_spec language_model state w1)
    as (Hres & Hlog' & Hproc' & Hheap').
  rewrite Hnew, Hlog in *. fold context in Hres, Hlog'.
  destruct (override_and_invoke language_model state w1) as [res w2].
  simpl in *.
  assert (Hkeep : deref state w2 = messages) by (unfold deref in *; now rewrite Hheap').
  destruct (language_model (length (gateway_log w)) context); simpl in Hres; subst res;
    simpl; rewrite ?Hkeep; repeat split; auto; congruence.
Qed.

End StepFacts.

(** ** Sample collaborators and conversations

    Concrete instances of the external collaborators, for the examples
    below. *)

(** A model that always answers with the same plain turn. *)
Definition plain_answers (n : nat) (context : list Message) : Outcome Message :=
  Returned plain_reply.

(** A token counter that charges one token per character of text. *)
Definition count_characters (messages : list Message) : Z :=
  foldr (fun m total => (len (spec_flattened_text (content m)) + total)%Z) 0%Z messages.

(** [float(s)] on a string of decimal digits (the examples apply it to
    such strings only). *)
Definition digit_value (c : ascii) : option Z :=
  let n := Z.of_N (N_of_ascii c) in
  if ((48 <=? n) && (n <=? 57))%Z then Some (n - 48)%Z else None.

Fixpoint digits_value (s : string) (acc : Z) : option Z :=
  match s with
  | EmptyString => Some acc
  | String c rest =>
      match digit_value c with
      | Some d => digits_value rest (10 * acc + d)%Z
      | None => None
      end
  end.

Definition float_of_digits (s : string) : option Float :=
  match s with
  | EmptyString => None
  | _ => option_map (fun n => Finite (inject_Z n)) (digits_value s 0%Z)
  end.

(** A clock that shows 1000 seconds at every superstep. *)
Definition clock_1000 (k : nat) : Q := 1000.

(** The page of 70000 characters a tool returned. *)
Definition long_page : string := N.iter 70000 (String "x") "".
Arguments long_page : simpl never.

Definition task_url : string := "http://x/q1".

Definition seeded : list Message :=
  [SystemMessage (QUIZ_SYSTEM_PROMPT (Some "a@b.c") (Some "s3cret")); HumanMessage task_url].

Definition fetch_call : ToolCall :=
  mkToolCall "get_rendered_html" (JObj [("target_url", JStr task_url)]) "call_0".

(** A conversation whose last tool result alone exceeds the budget. *)
Definition overgrown : list Message :=
  seeded ++ [mkMessage ai (CStr "") [fetch_call] ∅; mkMessage tool (CStr long_page) [] ∅].

(** The process 10 seconds into the task [task_url]. *)
Definition on_first_task : Process :=
  mkProcess 1000 {[ "url" := task_url; "offset" := "0" ]} {[ task_url := 990%Q ]}.

(** The process after the current URL moved to a page with no recorded
    start, with an offset of 100 seconds. *)
Definition on_unrecorded_task : Process :=
  mkProcess 1000 {[ "url" := "http://x/q2"; "offset" := "100" ]} {[ task_url := 10%Q ]}.

(** The process 200 seconds into the task [task_url]. *)
Definition late_on_first_task : Process :=
  mkProcess 1000 {[ "url" := task_url; "offset" := "0" ]} {[ task_url := 800%Q ]}.

Definition fresh_world (p : Process) : World := mkWorld p [] [].

Section StepTheorems.

Variable language_model : nat -> list Message -> Outcome Message.
Variable token_counter : list Message -> Z.
Variable float : string -> option Float.
Variable fsub : Q -> Q -> Float.
Variable clock : nat -> Q.

Local Abbreviation agent_step := (agent_node_step language_model token_counter float fsub clock).

(** C5: an agent step that does not take the deadline branch leaves the
    stored conversation as it was, plus the one response of the model,
    however much the view was trimmed; when the trimmed view holds no
    human message, the context sent to the model is the trimmed view
    followed by exactly one reminder, a human message that names the
    current URL, and the list object of the stored conversation does not
    receive it. *)
Theorem trimming_is_a_view :
  forall (k : nat) (messages : list Message) (w : World) (result : Message),
    let p := process (set_time (clock k) w) in
    let trimmed := trim_messages token_counter messages in
    let current_quiz_url := default "Unknown URL" (environ p !! "url") in
    let reminder :=
      mkMessage human
        (CStr ("Context cleared due to length. Continue processing URL: "
               +:+ current_quiz_url)) [] ∅ in
    let view :=
      if existsb (is_type human) trimmed then trimmed else trimmed ++ [reminder] in
    deadline_check float fsub p = Returned false ->
    language_model (length (gateway_log w)) view = Returned result ->
    exists w',
      agent_step k messages w = (Returned (messages ++ [result]), w') /\
      gateway_log w' = gateway_log w ++ [view] /\
      deref (length (heap w)) w' = messages.
Proof.
  intros k messages w result p trimmed current_quiz_url reminder view Hcheck Hanswer.
  destruct (agent_step_normal language_model token_counter float fsub clock k messages w Hcheck)
    as (Hres & Hlog & Hkeep & _).
  fold p in Hres, Hlog. change (transient_view token_counter messages p) with view in *.
  rewrite Hanswer in Hres.
  destruct (agent_step k messages w) as [res w'] eqn:E. simpl in *.
  exists w'. subst res. auto.
Qed.

(** C3 (as amended): when a start time is recorded for the current URL,
    each of the two overrun conditions alone, on the differences as the
    step computes them in double arithmetic, makes the step take the
    deadline branch: no trimmed view is built, the model is invoked once,
    on the whole conversation followed by the one override instruction,
    and its response is appended to the stored conversation. *)
Theorem recorded_start_and_overrun_trigger_override :
  float "0" = Some (Finite 0) ->
  forall (k : nat) (messages : list Message) (w : World)
         (previous_time : Q) (result : Message),
    let p := process (set_time (clock k) w) in
    recorded_start p = Some previous_time ->
    float_ge (fsub (time_now p) previous_time) 180 = true \/
    (exists offset, float (time_offset p) = Some offset /\
                    ~ is_zero offset /\
                    float_gt (minus_float fsub (time_now p) offset) 90 = true) ->
    language_model (length (gateway_log w)) (messages ++ [timeout_message])
      = Returned result ->
    exists w',
      agent_step k messages w = (Returned (messages ++ [result]), w') /\
      gateway_log w' = gateway_log w ++ [messages ++ [timeout_message]] /\
      heap w' = heap w ++ [messages].
Proof.
  intros Hzero k messages w previous_time result p Hstart Hover Hanswer.
  assert (Hcheck : deadline_check float fsub p = Returned true).
  { unfold deadline_check. rewrite Hstart. unfold deadline_exceeded.
    destruct (float_ge (fsub (time_now p) previous_time) 180) eqn:Ea; [reflexivity |].
    destruct Hover as [Ha | (offset & Hfloat & Hnz & Hb)]; [discriminate |].
    destruct (String.eqb (time_offset p) "0") eqn:Eo.
    - apply String.eqb_eq in Eo. rewrite Eo, Hzero in Hfloat.
      injection Hfloat as <-. destruct Hnz. simpl. reflexivity.
    - now rewrite Hfloat, Hb. }
  destruct (agent_step_deadline language_model token_counter float fsub clock k messages w Hcheck)
    as (Hres & Hlog & Hheap & _).
  rewrite Hanswer in Hres.
  destruct (agent_step k messages w) as [res w'] eqn:E. simpl in *.
  exists w'. subst res. auto.
Qed.

End StepTheorems.

Lemma trimming_is_a_view_witness :
  let p := process (set_time (clock_1000 0) (fresh_world on_first_task)) in
  let trimmed := trim_messages count_characters overgrown in
  let view :=
    trimmed ++ [mkMessage human
                  (CStr "Context cleared due to length. Continue processing URL: http://x/q1")
                  [] ∅] in
  existsb (is_type human) trimmed = false /\
  deadline_check float_of_digits exact_sub p = Returned false /\
  plain_answers 0 view = Returned plain_reply /\
  exists w',
    agent_node_step plain_answers count_characters float_of_digits exact_sub clock_1000
      0 overgrown (fresh_world on_first_task)
      = (Returned (overgrown ++ [plain_reply]), w') /\
    gateway_log w' = [] ++ [view] /\
    deref 0 w' = overgrown.
Proof.
  intros p trimmed view.
  assert (Hhuman : existsb (is_type human) trimmed = false) by (vm_compute; reflexivity).
  assert (Hcheck : deadline_check float_of_digits exact_sub p = Returned false)
    by (vm_compute; reflexivity).
  assert (Hanswer : plain_answers 0 view = Returned plain_reply) by reflexivity.
  split; [exact Hhuman | split; [exact Hcheck | split; [exact Hanswer |]]].
  pose proof (trimming_is_a_view plain_answers count_characters float_of_digits exact_sub
                clock_1000 0 overgrown (fresh_world on_first_task) plain_reply) as H.
  cbv zeta in H. fold trimmed in H. rewrite Hhuman in H.
  exact (H Hcheck Hanswer).
Defined.

(** The process 10 seconds into the task [task_url], with an offset of
    100 seconds in the environment. *)
Definition with_old_offset : Process :=
  mkProcess 1000 {[ "url" := task_url; "offset" := "100" ]} {[ task_url := 990%Q ]}.

Lemma recorded_start_and_overrun_trigger_override_witness :
  let late := process (set_time (clock_1000 0) (fresh_world late_on_first_task)) in
  let old := process (set_time (clock_1000 0) (fresh_world with_old_offset)) in
  float_of_digits "0" = Some (Finite 0) /\
  plain_answers 0 (seeded ++ [timeout_message]) = Returned plain_reply /\
  (recorded_start late = Some 800%Q /\
   float_ge (exact_sub (time_now late) 800) 180 = true /\
   exists w',
     agent_node_step plain_answers count_characters float_of_digits exact_sub clock_1000
       0 seeded (fresh_world late_on_first_task)
       = (Returned (seeded ++ [plain_reply]), w') /\
     gateway_log w' = [] ++ [seeded ++ [timeout_message]] /\
     heap w' = [] ++ [seeded]) /\
  (recorded_start old = Some 990%Q /\
   float_ge (exact_sub (time_now old) 990) 180 = false /\
   float_of_digits (time_offset old) = Some (Finite 100) /\
   ~ is_zero (Finite 100) /\
   float_gt (minus_float exact_sub (time_now old) (Finite 100)) 90 = true /\
   exists w',
     agent_node_step plain_answers count_characters float_of_digits exact_sub clock_1000
       0 seeded (fresh_world with_old_offset)
       = (Returned (seeded ++ [plain_reply]), w') /\
     gateway_log w' = [] ++ [seeded ++ [timeout_message]] /\
     heap w' = [] ++ [seeded]).
Proof.
  intros late old.
  assert (Hzero : float_of_digits "0" = Some (Finite 0)) by reflexivity.
  assert (Hanswer : plain_answers 0 (seeded ++ [timeout_message]) = Returned plain_reply)
    by reflexivity.
  assert (Hstart : recorded_start late = Some 800%Q) by (vm_compute; reflexivity).
  assert (Hlate : float_ge (exact_sub (time_now late) 800) 180 = true)
    by (vm_compute; reflexivity).
  assert (Hstart' : recorded_start old = Some 990%Q) by (vm_compute; reflexivity).
  assert (Hearly : float_ge (exact_sub (time_now old) 990) 180 = false)
    by (vm_compute; reflexivity).
  assert (Hfloat : float_of_digits (time_offset old) = Some (Finite 100))
    by (vm_compute; reflexivity).
  assert (Hnz : ~ is_zero (Finite 100)) by (intros H; vm_compute in H; discriminate).
  assert (Hold : float_gt (minus_float exact_sub (time_now old) (Finite 100)) 90 = true)
    by (vm_compute; reflexivity).
  split; [exact Hzero | split; [exact Hanswer | split]].
  - split; [exact Hstart | split; [exact Hlate |]].
    exact (recorded_start_and_overrun_trigger_override plain_answers count_characters
             float_of_digits exact_sub clock_1000 Hzero 0 seeded
             (fresh_world late_on_first_task) 800%Q plain_reply Hstart
             (or_introl Hlate) Hanswer).
  - repeat (split; [assumption |]).
    exact (recorded_start_and_overrun_trigger_override plain_answers count_characters
             float_of_digits exact_sub clock_1000 Hzero 0 seeded
             (fresh_world with_old_offset) 990%Q plain_reply Hstart'
             (or_intror (ex_intro _ (Finite 100) (conj Hfloat (conj Hnz Hold)))) Hanswer).
Defined.

(** C3 (as stated) fails: with no start time recorded for the current
    URL, an offset of 100 seconds that is 900 seconds old does not
    trigger the override; the model is invoked on the trimmed view, with
    no override instruction. *)
Lemma old_offset_without_recorded_start_is_not_overridden :
  let w := fresh_world on_unrecorded_task in
  let p := process (set_time (clock_1000 0) w) in
  let step := agent_node_step plain_answers count_characters float_of_digits exact_sub clock_1000 in
  (exists offset, float_of_digits (time_offset p) = Some offset /\
                  ~ is_zero offset /\
                  float_gt (minus_float exact_sub (time_now p) offset) 90 = true) /\
  recorded_start p = None /\
  gateway_log (step 0 seeded w).2 = [seeded] /\
  gateway_log (step 0 seeded w).2 <> [seeded ++ [timeout_message]].
Proof.
  intros w p step.
  assert (Hlog : gateway_log (step 0 seeded w).2 = [seeded]) by (vm_compute; reflexivity).
  split; [| split; [vm_compute; reflexivity | split; [exact Hlog |]]].
  - exists (Finite 100). split; [vm_compute; reflexivity |].
    split; [intros H; vm_compute in H; discriminate | vm_compute; reflexivity].
  - rewrite Hlog. intros H. injection H as H.
    apply (f_equal (@length Message)) in H. simpl in H. discriminate.
Qed.

(** ** Properties of a run *)

Definition is_agent (node : Route) : bool :=
  match node with
  | agent => true
  | _ => false
  end.

(** The number of times the node "agent" was entered. *)
Fixpoint agent_entries (t : list (Route * list Message)) : nat :=
  match t with
  | [] => 0
  | (node, _) :: rest => (if is_agent node then 1 else 0) + agent_entries rest
  end.

Section RunFacts.

Variable language_model : nat -> list Message -> Outcome Message.
Variable token_counter : list Message -> Z.
Variable float : string -> option Float.
Variable fsub : Q -> Q -> Float.
Variable tool_node : nat -> Process -> list Message -> Outcome (list Message) * Process.
Variable clock : nat -> Q.

Local Abbreviation agent_step := (agent_node_step language_model token_counter float fsub clock).
Local Abbreviation step := (superstep language_model token_counter float fsub tool_node clock).
Local Abbreviation run := (run_graph language_model token_counter float fsub tool_node clock).

Lemma agent_step_facts (k : nat) (messages : list Message) (w : World) :
  let w' := (agent_step k messages w).2 in
  length (gateway_log w) <= length (gateway_log w') <= S (length (gateway_log w)) /\
  forall messages', (agent_step k messages w).1 = Returned messages' ->
                    exists result, messages' = messages ++ [result].
Proof.
  unfold agent_node_step.
  pose proof (deref_alloc_new messages (set_time (clock k) w)) as Hnew.
  destruct (alloc messages (set_time (clock k) w)) as [state w1] eqn:Ealloc.
  simpl in Hnew.
  assert (Hlen : state < length (heap w1)).
  { unfold alloc in Ealloc. inversion Ealloc. simpl. rewrite length_app. simpl. lia. }
  assert (Hlog : gateway_log w1 = gateway_log w) by (unfold alloc in Ealloc; now inversion Ealloc).
  pose proof (quiz_processing_node_frame language_model token_counter float fsub state w1 Hlen)
    as (Hkeep & _ & Hcalls).
  assert (Hone : forall update,
             (quiz_processing_node language_model token_counter float fsub state w1).1
               = Returned update -> exists result, update = [result]).
  { intros update. unfold quiz_processing_node, trim_and_invoke, override_and_invoke, invoke.
    repeat match goal with
           | |- context [match ?x with _ => _ end] => destruct x; simpl
           | |- context [let (_, _) := ?x in _] => destruct x; simpl
           end; intros [=]; eauto. }
  destruct (quiz_processing_node language_model token_counter float fsub state w1)
    as [[update | e] w2]; simpl in *.
  - split.
    + destruct Hcalls as [-> | [context ->]]; rewrite ?length_app, Hlog; simpl; lia.
    + intros messages' [= <-]. destruct (Hone update eq_refl) as [result ->].
      exists result. unfold add_messages. now rewrite Hkeep, Hnew.
  - split; [| discriminate].
    destruct Hcalls as [-> | [context ->]]; rewrite ?length_app, Hlog; simpl; lia.
Qed.

Lemma superstep_facts (k : nat) (node : Route) (messages : list Message) (w : World) :
  let w' := (step k node messages w).2 in
  length (gateway_log w) <= length (gateway_log w')
    <= (if is_agent node then 1 else 0) + length (gateway_log w) /\
  forall messages' next, (step k node messages w).1 = Returned (messages', next) ->
                         exists extra, messages' = messages ++ extra.
Proof.
  destruct node; simpl.
  - split; [lia |]. intros messages' next [= <- _]. eauto.
  - destruct (tool_node k (process w) messages) as [[update | e] p]; simpl.
    + split; [lia |]. intros messages' next [= <- _]. eauto.
    + split; [lia | discriminate].
  - split; [lia |]. intros messages' next [= <- _]. exists []. now rewrite app_nil_r.
  - unfold agent_superstep.
    pose proof (agent_step_facts k messages w) as [Hlog Hext].
    destruct (agent_step k messages w) as [[messages1 | e] w1]; simpl in *.
    + destruct (determine_next_step messages1) as [next | e]; simpl.
      * split; [lia |]. intros messages' next' [= <- _].
        destruct (Hext messages1 eq_refl) as [result ->]. eauto.
      * split; [lia | discriminate].
    + split; [lia | discriminate].
Qed.

Lemma run_graph_END (limit k : nat) (messages : list Message) (w : World) :
  run limit k END messages w = mkRun Done messages [] w.
Proof. destruct limit; reflexivity. Qed.

Lemma run_graph_O (k : nat) (node : Route) (messages : list Message) (w : World) :
  node <> END -> run 0 k node messages w = mkRun OutOfSteps messages [] w.
Proof. destruct node; [reflexivity | reflexivity | contradiction | reflexivity]. Qed.

Lemma run_graph_S (limit k : nat) (node : Route) (messages : list Message) (w : World) :
  node <> END ->
  run (S limit) k node messages w =
    match step k node messages w with
    | (Raised e, w') => mkRun (NodeRaised e) messages [(node, messages)] w'
    | (Returned (messages', next), w') =>
        let rest := run limit (S k) next messages' w' in
        mkRun (ending rest) (conversation rest)
              ((node, messages) :: trace rest) (final rest)
    end.
Proof. destruct node; [reflexivity | reflexivity | contradiction | reflexivity]. Qed.

(** The stored conversation only grows during a run: every conversation
    a node was entered with, and the one at the end, extend the one the
    run started from. *)
Lemma run_extends (limit k : nat) (node : Route) (messages : list Message) (w : World) :
  let r := run limit k node messages w in
  (exists extra, conversation r = messages ++ extra) /\
  Forall (fun entry => exists extra, entry.2 = messages ++ extra) (trace r).
Proof.
  revert k node messages w.
  assert (Hnil : forall messages : list Message, exists extra, messages = messages ++ extra).
  { intros messages. exists []. now rewrite app_nil_r. }
  induction limit as [| limit IH]; intros k node messages w.
  - destruct node; simpl; auto.
  - assert (Hcase : node = END \/ node <> END) by (destruct node; auto; right; discriminate).
    destruct Hcase as [-> | Hnode]; [simpl; auto |].
    cbv zeta. rewrite run_graph_S by assumption.
    pose proof (superstep_facts k node messages w) as [_ Hext].
    destruct (step k node messages w) as [[[messages' next] | e] w']; simpl in *.
    + destruct (Hext messages' next eq_refl) as [extra ->].
      destruct (IH (S k) next (messages ++ extra) w') as [[extra' Hc] Ht].
      split.
      * exists (extra ++ extra'). rewrite Hc. now rewrite app_assoc.
      * constructor; [simpl; auto |].
        eapply Forall_impl; [exact Ht |].
        intros entry [extra'' ->]. exists (extra ++ extra''). now rewrite app_assoc.
    + split; [auto | constructor; [simpl; auto | constructor]].
Qed.

Lemma Route_END_or_not (node : Route) : node = END \/ node <> END.
Proof. destruct node; auto; right; discriminate. Qed.

(** The ceiling bounds the supersteps; the node "agent" is entered in
    some of them and calls the model at most once each time. *)
Lemma run_bounded (limit k : nat) (node : Route) (messages : list Message) (w : World) :
  let r := run limit k node messages w in
  length (trace r) <= limit /\
  agent_entries (trace r) <= length (trace r) /\
  length (gateway_log w) <= length (gateway_log (final r))
    <= agent_entries (trace r) + length (gateway_log w).
Proof.
  revert k node messages w.
  induction limit as [| limit IH]; intros k node messages w.
  - destruct node; simpl; lia.
  - destruct (Route_END_or_not node) as [-> | Hnode]; [simpl; lia |].
    cbv zeta. rewrite run_graph_S by assumption.
    pose proof (superstep_facts k node messages w) as [Hlog _].
    destruct (step k node messages w) as [[[messages' next] | e] w']; simpl in *.
    + specialize (IH (S k) next messages' w'). simpl in IH.
      destruct (is_agent node); lia.
    + destruct (is_agent node); lia.
Qed.

(** A run ends out of steps only after it used the whole budget. *)
Lemma run_out_of_steps (limit k : nat) (node : Route) (messages : list Message) (w : World) :
  ending (run limit k node messages w) = OutOfSteps ->
  length (trace (run limit k node messages w)) = limit.
Proof.
  revert k node messages w.
  induction limit as [| limit IH]; intros k node messages w.
  - destruct node; simpl; auto.
  - destruct (Route_END_or_not node) as [-> | Hnode]; [simpl; discriminate |].
    rewrite run_graph_S by assumption.
    destruct (step k node messages w) as [[[messages' next] | e] w']; simpl.
    + intros H. f_equal. now apply IH.
    + discriminate.
Qed.

(** A run that ends otherwise is the same under every larger ceiling. *)
Lemma run_limit_irrelevant (limit more k : nat) (node : Route)
    (messages : list Message) (w : World) :
  ending (run limit k node messages w) <> OutOfSteps ->
  run (limit + more) k node messages w = run limit k node messages w.
Proof.
  revert k node messages w.
  induction limit as [| limit IH]; intros k node messages w.
  - destruct (Route_END_or_not node) as [-> | Hnode].
    + now rewrite !run_graph_END.
    + rewrite run_graph_O by assumption. simpl. contradiction.
  - destruct (Route_END_or_not node) as [-> | Hnode].
    + now rewrite !run_graph_END.
    + change (S limit + more) with (S (limit + more)).
      rewrite !run_graph_S by assumption.
      destruct (step k node messages w) as [[[messages' next] | e] w']; simpl; [| reflexivity].
      intros H. now rewrite IH.
Qed.

(** *** Trimming keeps the system message *)

Lemma trim_messages_keeps_system (first : Message) (others : list Message) :
  is_type system first = true ->
  exists kept, trim_messages token_counter (first :: others) = first :: kept.
Proof.
  intros Hsys. simpl. rewrite Hsys. eauto.
Qed.

Lemma first_max_tokens_all_fit (messages : list Message) (oldest : Message)
    (max_tokens : Z) :
  last messages = Some oldest ->
  is_type human oldest = true ->
  (token_counter messages <= max_tokens)%Z ->
  first_max_tokens token_counter messages max_tokens human = messages.
Proof.
  intros Hlast Hhuman Hfit. unfold first_max_tokens.
  destruct (length messages) as [| n] eqn:Hlen.
  - destruct messages; [reflexivity | discriminate].
  - assert (Hall : take (S n) messages = messages) by (rewrite <- Hlen; apply firstn_all).
    simpl longest_fit. rewrite Hall.
    apply Z.leb_le in Hfit. rewrite Hfit.
    assert (Hn : messages !! n = Some oldest).
    { rewrite last_lookup in Hlast. now rewrite Hlen in Hlast. }
    simpl back_to_type. rewrite Hn, Hhuman. exact Hall.
Qed.

Lemma trim_messages_all_fit (first second : Message) (rest : list Message) :
  is_type system first = true ->
  is_type human second = true ->
  (token_counter (reverse (second :: rest))
     <= Z.max 0 (TOKEN_LIMIT - token_counter [first]))%Z ->
  trim_messages token_counter (first :: second :: rest) = first :: second :: rest.
Proof.
  intros Hsys Hhuman Hfit. unfold trim_messages. rewrite Hsys. cbv zeta.
  rewrite (first_max_tokens_all_fit (reverse (second :: rest)) second); auto.
  - now rewrite reverse_involutive.
  - rewrite reverse_cons. apply last_snoc.
Qed.

End RunFacts.

Section RunTheorems.

Variable language_model : nat -> list Message -> Outcome Message.
Variable token_counter : list Message -> Z.
Variable float : string -> option Float.
Variable fsub : Q -> Q -> Float.
Variable tool_node : nat -> Process -> list Message -> Outcome (list Message) * Process.
Variable clock : nat -> Q.
Variables USER_EMAIL USER_SECRET : option string.

Local Abbreviation run := (run_graph language_model token_counter float fsub tool_node clock).
Local Abbreviation run_from_url :=
  (run_agent language_model token_counter float fsub tool_node clock USER_EMAIL USER_SECRET).

(** C2 (as amended): the stored conversation of a run, at every node
    entry and at the end, begins with the system message of the
    operating instructions followed by the human message of the starting
    task URL; the trimmed view of every such conversation still begins
    with that system message, and is the whole conversation, the task URL
    message included, whenever the messages after the system message fit
    in what the system message leaves of the token budget. *)
Theorem seed_prefix_stored_and_system_message_survives_trimming :
  forall (quiz_url : string) (w : World),
    let r := run_from_url quiz_url w in
    let instructions := SystemMessage (QUIZ_SYSTEM_PROMPT USER_EMAIL USER_SECRET) in
    let task := HumanMessage quiz_url in
    (exists extra, conversation r = instructions :: task :: extra) /\
    Forall (fun entry =>
              exists extra,
                entry.2 = instructions :: task :: extra /\
                (exists kept,
                    trim_messages token_counter entry.2 = instructions :: kept) /\
                ((token_counter (reverse (task :: extra))
                    <= Z.max 0 (TOKEN_LIMIT - token_counter [instructions]))%Z ->
                 trim_messages token_counter entry.2 = entry.2))
           (trace r).
Proof.
  intros quiz_url w r instructions task. subst r. unfold run_agent.
  generalize MAX_RECURSION_DEPTH. intros limit.
  destruct (run_extends language_model token_counter float fsub tool_node clock
              limit 0 agent (initial_message_stack USER_EMAIL USER_SECRET quiz_url) w)
    as [Hend Htrace].
  split; [exact Hend |].
  eapply Forall_impl; [exact Htrace |].
  intros entry [extra Hentry]. exists extra. rewrite Hentry.
  split; [reflexivity | split].
  - now apply trim_messages_keeps_system.
  - intros Hfit. now apply trim_messages_all_fit.
Qed.

(** C6: a run enters the node "agent" at most 5000 times and sends at
    most as many calls to the model as it entered the node; it always
    ends, and it ends with the ceiling error exactly when it would go on
    beyond 5000 supersteps: then all 5000 were run, and otherwise the run
    is the same under every larger ceiling. *)
Theorem agent_entries_bounded_and_excess_aborts :
  forall (quiz_url : string) (w : World),
    let r := run_from_url quiz_url w in
    (Z.of_nat (agent_entries (trace r)) <= 5000)%Z /\
    length (gateway_log (final r)) <= agent_entries (trace r) + length (gateway_log w) /\
    (ending r = OutOfSteps -> Z.of_nat (length (trace r)) = 5000%Z) /\
    (ending r <> OutOfSteps ->
     forall more,
       run (MAX_RECURSION_DEPTH + more) 0 agent
           (initial_message_stack USER_EMAIL USER_SECRET quiz_url) w = r) /\
    (forall limit,
        (5000 < Z.of_nat (length (trace (run limit 0 agent
             (initial_message_stack USER_EMAIL USER_SECRET quiz_url) w))))%Z ->
        ending r = OutOfSteps).
Proof.
  intros quiz_url w r. subst r. unfold run_agent.
  assert (Hdepth : Z.of_nat MAX_RECURSION_DEPTH = 5000%Z)
    by (unfold MAX_RECURSION_DEPTH; apply Z2Nat.id; lia).
  revert Hdepth. generalize MAX_RECURSION_DEPTH. intros depth Hdepth.
  set (seed := initial_message_stack USER_EMAIL USER_SECRET quiz_url).
  set (r := run depth 0 agent seed w).
  pose proof (run_bounded language_model token_counter float fsub tool_node clock
                depth 0 agent seed w) as (Hlen & Hentries & Hlog).
  fold r in Hlen, Hentries, Hlog.
  assert (Hsame : ending r <> OutOfSteps -> forall more,
             run (depth + more) 0 agent seed w = r).
  { intros Hend more. now apply run_limit_irrelevant. }
  repeat split.
  - lia.
  - lia.
  - intros Hend.
    apply (run_out_of_steps language_model token_counter float fsub tool_node clock) in Hend.
    fold r in Hend. lia.
  - exact Hsame.
  - intros limit Hlong.
    assert (Hcases : ending r = OutOfSteps \/ ending r <> OutOfSteps)
      by (destruct (ending r); auto; right; discriminate).
    destruct Hcases as [Hend | Hno]; [exact Hend | exfalso].
    destruct (Nat.le_gt_cases limit depth) as [Hle | Hgt].
    all: try (pose proof (run_bounded language_model token_counter float fsub tool_node clock
                            limit 0 agent seed w) as (Hlen' & _); cbv zeta in Hlen'; lia).
    all: replace limit with (depth + (limit - depth)) in Hlong by lia.
    all: rewrite (Hsame Hno) in Hlong; lia.
Qed.

End RunTheorems.

(** *** A model that never stops

    With a model that answers every call with a plain turn, and no
    offset in the environment, a run enters "agent" in every superstep,
    calls the model each time, and ends with the ceiling error. *)

Section Runaway.

Variable token_counter : list Message -> Z.
Variable float : string -> option Float.
Variable fsub : Q -> Q -> Float.
Variable tool_node : nat -> Process -> list Message -> Outcome (list Message) * Process.
Variable clock : nat -> Q.

Local Abbreviation run := (run_graph plain_answers token_counter float fsub tool_node clock).

Lemma deadline_check_without_offset (p : Process) :
  time_offset p = "0" -> exists b, deadline_check float fsub p = Returned b.
Proof.
  intros Hoff. unfold deadline_check, deadline_exceeded. rewrite Hoff.
  destruct (recorded_start p); [| eauto].
  destruct (float_ge _ _); simpl; eauto.
Qed.

Lemma plain_agent_superstep (k : nat) (messages : list Message) (w : World) :
  time_offset (process w) = "0" ->
  exists w',
    agent_superstep plain_answers token_counter float fsub clock k messages w
      = (Returned (messages ++ [plain_reply], agent), w') /\
    length (gateway_log w') = S (length (gateway_log w)) /\
    time_offset (process w') = "0".
Proof.
  intros Hoff.
  destruct (deadline_check_without_offset (process (set_time (clock k) w)) Hoff) as [b Hb].
  unfold agent_superstep.
  assert (Hstep : (agent_node_step plain_answers token_counter float fsub clock k messages w).1
                  = Returned (messages ++ [plain_reply]) /\
                  length (gateway_log
                    (agent_node_step plain_answers token_counter float fsub clock k messages w).2)
                  = S (length (gateway_log w)) /\
                  process (agent_node_step plain_answers token_counter float fsub clock k messages w).2
                  = process (set_time (clock k) w)).
  { destruct b.
    - destruct (agent_step_deadline plain_answers token_counter float fsub clock k messages w Hb)
        as (Hres & Hlog & _ & Hproc).
      rewrite Hlog, length_app. simpl. repeat split; auto; lia.
    - destruct (agent_step_normal plain_answers token_counter float fsub clock k messages w Hb)
        as (Hres & Hlog & _ & _ & Hproc).
      rewrite Hlog, length_app. simpl. repeat split; auto; lia. }
  destruct (agent_node_step plain_answers token_counter float fsub clock k messages w)
    as [res w']. simpl in Hstep. destruct Hstep as (-> & Hlog & Hproc).
  exists w'. rewrite determine_next_step_snoc.
  repeat split; [exact Hlog | now rewrite Hproc].
Qed.

Lemma runaway_run_hits_the_ceiling (limit k : nat) (messages : list Message) (w : World) :
  time_offset (process w) = "0" ->
  let r := run limit k agent messages w in
  ending r = OutOfSteps /\
  agent_entries (trace r) = limit /\
  length (gateway_log (final r)) = limit + length (gateway_log w).
Proof.
  revert k messages w.
  induction limit as [| limit IH]; intros k messages w Hoff; [simpl; auto |].
  cbv zeta. rewrite run_graph_S by discriminate.
  change (superstep plain_answers token_counter float fsub tool_node clock k agent messages w)
    with (agent_superstep plain_answers token_counter float fsub clock k messages w).
  destruct (plain_agent_superstep k messages w Hoff) as (w' & -> & Hlog & Hoff').
  destruct (IH (S k) (messages ++ [plain_reply]) w' Hoff') as (Hend & Hentries & Hcalls).
  simpl. rewrite Hend, Hentries, Hcalls, Hlog. repeat split; lia.
Qed.

End Runaway.

(** A model that first asks for the page of the task and then says END,
    and a tool node that returns the long page. *)
Definition fetch_then_end (n : nat) (context : list Message) : Outcome Message :=
  match n with
  | O => Returned (mkMessage ai (CStr "") [fetch_call] ∅)
  | S _ => Returned (mkMessage ai (CStr "END") [] ∅)
  end.

Definition long_page_tool_node (k : nat) (p : Process) (messages : list Message)
    : Outcome (list Message) * Process :=
  (Returned [mkMessage tool (CStr long_page) [] ∅], p).

Definition long_page_run : Run :=
  run_agent fetch_then_end count_characters float_of_digits exact_sub long_page_tool_node
    clock_1000 (Some "a@b.c") (Some "s3cret") task_url (fresh_world on_first_task).

(** C2 (as stated) fails: in [long_page_run] the node "agent" is entered
    with the stored conversation [overgrown], whose trimmed view no
    longer holds the message of the starting task URL; the model then
    receives the system message and the reminder only. *)
Lemma task_url_message_is_evicted_by_trimming :
  ending long_page_run = Done /\
  In (agent, overgrown) (trace long_page_run) /\
  ~ In (HumanMessage task_url) (trim_messages count_characters overgrown) /\
  gateway_log (final long_page_run) !! 1 =
    Some [SystemMessage (QUIZ_SYSTEM_PROMPT (Some "a@b.c") (Some "s3cret"));
          context_reminder task_url].
Proof.
  assert (Htrace : trace long_page_run =
                   [(agent, seeded); (tools, take 3 overgrown); (agent, overgrown)])
    by (vm_cast_no_check (eq_refl (trace long_page_run))).
  assert (Htrim : trim_messages count_characters overgrown = take 1 seeded)
    by (vm_compute; reflexivity).
  split; [vm_compute; reflexivity |].
  split; [rewrite Htrace; right; right; left; reflexivity |].
  split; [| vm_compute; reflexivity].
  rewrite Htrim. intros [H | []]. discriminate H.
Qed.

(** The scenario of the specification: with a model that never says
    END, [run_agent] enters "agent" 5000 times, calls the model 5000
    times, and ends with the ceiling error. *)
Lemma never_ending_model_is_cut_at_5000 :
  let r := run_agent plain_answers count_characters float_of_digits exact_sub long_page_tool_node
             clock_1000 (Some "a@b.c") (Some "s3cret") task_url (fresh_world on_first_task) in
  ending r = OutOfSteps /\
  Z.of_nat (agent_entries (trace r)) = 5000%Z /\
  Z.of_nat (length (gateway_log (final r))) = 5000%Z.
Proof.
  intros r. subst r. unfold run_agent.
  assert (Hdepth : Z.of_nat MAX_RECURSION_DEPTH = 5000%Z)
    by (unfold MAX_RECURSION_DEPTH; apply Z2Nat.id; lia).
  revert Hdepth. generalize MAX_RECURSION_DEPTH. intros depth Hdepth.
  assert (Hoff : time_offset (process (fresh_world on_first_task)) = "0")
    by (vm_compute; reflexivity).
  destruct (runaway_run_hits_the_ceiling count_characters float_of_digits exact_sub
              long_page_tool_node clock_1000 depth 0 seeded
              (fresh_world on_first_task) Hoff) as (Hend & Hentries & Hcalls).
  change (initial_message_stack (Some "a@b.c") (Some "s3cret") task_url) with seeded.
  rewrite Hend, Hentries, Hcalls. simpl. repeat split; lia.
Qed.

(** ** More on the routing function *)

(** X10: white space around the text of a reply never changes the
    route; a reply [" END\n"] is routed as the reply ["END"]. *)
Theorem route_ignores_white_space_around_text :
  forall (history : list Message) (t : MsgType) (calls : list ToolCall)
         (metadata : gmap string JSON) (before text after : string),
    is_blank before = true -> is_blank after = true ->
    determine_next_step
      (history ++ [mkMessage t (CStr (before +:+ text +:+ after)) calls metadata])
    = determine_next_step (history ++ [mkMessage t (CStr text) calls metadata]).
Proof.
  intros history t calls metadata before text after Hb Ha.
  rewrite !determine_next_step_snoc. simpl.
  now rewrite (strip_ignores_blank_margins before text after Hb Ha).
Qed.

Lemma route_ignores_white_space_around_text_witness :
  is_blank " " = true /\ is_blank (String newline "") = true /\
  determine_next_step
    ([] ++ [mkMessage ai (CStr (" " +:+ "END" +:+ String newline "")) [] ∅])
  = Returned END.
Proof.
  assert (H1 : is_blank " " = true) by reflexivity.
  assert (H2 : is_blank (String newline "") = true) by reflexivity.
  split; [exact H1 | split; [exact H2 |]].
  exact (eq_trans
           (route_ignores_white_space_around_text [] ai [] ∅ " " "END"
              (String newline "") H1 H2)
           eq_refl).
Defined.

(** X11: a reply whose content is an empty list, or a list whose first
    part is a bare string, never ends the run, whatever its parts say:
    with no malformed reason and no tool call it is routed back to
    [agent]. *)
Theorem list_content_without_leading_block_goes_to_agent :
  forall (history : list Message) (m : Message) (parts : list Part),
    content m = CList parts ->
    (parts = [] \/ exists s rest, parts = PStr s :: rest) ->
    ~ has_malformed_reason m -> tool_calls m = [] ->
    determine_next_step (history ++ [m]) = Returned agent.
Proof.
  intros history m parts Hcontent Hparts Hm Hcalls.
  rewrite determine_next_step_snoc.
  apply malformed_false in Hm. rewrite Hm, Hcalls, Hcontent.
  destruct Hparts as [-> | (s & rest & ->)]; reflexivity.
Qed.

(** A reply whose content is the list of the one string END. *)
Definition bare_end_reply : Message := mkMessage ai (CList [PStr "END"]) [] ∅.

Lemma list_content_without_leading_block_goes_to_agent_witness :
  content bare_end_reply = CList [PStr "END"] /\
  ~ has_malformed_reason bare_end_reply /\ tool_calls bare_end_reply = [] /\
  strip (spec_flattened_text (content bare_end_reply)) = "END" /\
  determine_next_step ([] ++ [bare_end_reply]) = Returned agent.
Proof.
  assert (H1 : content bare_end_reply = CList [PStr "END"]) by reflexivity.
  assert (H2 : ~ has_malformed_reason bare_end_reply) by (vm_compute; discriminate).
  assert (H3 : tool_calls bare_end_reply = []) by reflexivity.
  split; [exact H1 | split; [exact H2 | split; [exact H3 | split; [reflexivity |]]]].
  exact (list_content_without_leading_block_goes_to_agent [] bare_end_reply
           [PStr "END"] H1 (or_intror (ex_intro _ "END" (ex_intro _ [] eq_refl))) H2 H3).
Defined.

(** X12: the route depends on the last message alone, whatever its
    content is, and not on the messages before it nor on its type; of a
    list content that begins with a block, only that block is read. *)
Theorem route_reads_last_message_and_first_block_only :
  forall (history history' : list Message) (t t' : MsgType) (calls : list ToolCall)
         (metadata : gmap string JSON),
    (forall message_content : Content,
       determine_next_step (history ++ [mkMessage t message_content calls metadata])
       = determine_next_step (history' ++ [mkMessage t' message_content calls metadata])) /\
    (forall (block : gmap string JSON) (rest rest' : list Part),
       determine_next_step
         (history ++ [mkMessage t (CList (PDict block :: rest)) calls metadata])
       = determine_next_step
           (history' ++ [mkMessage t' (CList (PDict block :: rest')) calls metadata])).
Proof.
  intros. split; intros; now rewrite !determine_next_step_snoc.
Qed.




(** ** More on the agent node *)

Section NodeExtras.

Variable language_model : nat -> list Message -> Outcome Message.
Variable token_counter : list Message -> Z.
Variable float : string -> option Float.
Variable fsub : Q -> Q -> Float.
Variable clock : nat -> Q.

Local Abbreviation node := (quiz_processing_node language_model token_counter float fsub).
Local Abbreviation agent_step := (agent_node_step language_model token_counter float fsub clock).

(** X15: when the difference the step computes between its clock and
    the recorded start is below 180 and the offset is a string other
    than ["0"] that [float] rejects, the step raises ValueError without
    calling the model. *)
Theorem unreadable_offset_raises_before_any_call :
  forall (k : nat) (messages : list Message) (w : World) (previous_time : Q),
    let p := process (set_time (clock k) w) in
    recorded_start p = Some previous_time ->
    float_ge (fsub (time_now p) previous_time) 180 = false ->
    time_offset p <> "0" ->
    float (time_offset p) = None ->
    (agent_step k messages w).1 = Raised ValueError /\
    gateway_log (agent_step k messages w).2 = gateway_log w.
Proof.
  intros k messages w previous_time p Hstart Hearly Hoff Hfloat.
  unfold agent_node_step.
  destruct (alloc messages (set_time (clock k) w)) as [state w1] eqn:Ealloc.
  assert (Hproc : process w1 = p) by (unfold alloc in Ealloc; now inversion Ealloc).
  assert (Hlog : gateway_log w1 = gateway_log w)
    by (unfold alloc in Ealloc; now inversion Ealloc).
  assert (Hnode : quiz_processing_node language_model token_counter float fsub state w1
                  = (Raised ValueError, w1)).
  { unfold quiz_processing_node. rewrite Hproc, Hstart. unfold deadline_exceeded.
    rewrite Hearly. apply String.eqb_neq in Hoff. now rewrite Hoff, Hfloat. }
  rewrite Hnode. simpl. auto.
Qed.

(** The context the step sends to the model, by the outcome of the
    time handling. *)
Definition context_sent (deadline : bool) (messages : list Message) (p : Process)
    : list Message :=
  if deadline then messages ++ [timeout_message]
  else transient_view token_counter messages p.

(** X16: when the call to the model raises, on either branch, the step
    raises the same exception: nothing is appended to the stored
    conversation, and the call is on the log. *)
Theorem model_failure_leaves_conversation_unchanged :
  forall (k : nat) (messages : list Message) (w : World) (deadline : bool) (e : Exn),
    let p := process (set_time (clock k) w) in
    deadline_check float fsub p = Returned deadline ->
    language_model (length (gateway_log w)) (context_sent deadline messages p) = Raised e ->
    (agent_step k messages w).1 = Raised e /\
    gateway_log (agent_step k messages w).2
      = gateway_log w ++ [context_sent deadline messages p] /\
    deref (length (heap w)) (agent_step k messages w).2 = messages.
Proof.
  intros k messages w deadline e p Hcheck Hraise. destruct deadline; simpl in Hraise.
  - destruct (agent_step_deadline language_model token_counter float fsub clock k messages w Hcheck)
      as (Hres & Hlog & Hheap & _).
    rewrite Hraise in Hres. repeat split; auto.
    unfold deref. rewrite Hheap. now rewrite list_lookup_middle.
  - destruct (agent_step_normal language_model token_counter float fsub clock k messages w Hcheck)
      as (Hres & Hlog & Hkeep & _).
    fold p in Hres, Hlog. rewrite Hraise in Hres. auto.
Qed.

(** X17: the node writes neither the environment nor the timing store,
    and changes no list that was in the store before it ran, the stored
    conversation included. *)
Theorem node_changes_no_existing_object :
  forall (state : nat) (w : World),
    let w' := (node state w).2 in
    process w' = process w /\
    (forall a, a < length (heap w) -> deref a w' = deref a w).
Proof.
  intros state w.
  assert (Hnormal :
    let w' := (trim_and_invoke language_model token_counter state w).2 in
    process w' = process w /\
    (forall a, a < length (heap w) -> deref a w' = deref a w)).
  { unfold trim_and_invoke, alloc, invoke. cbv zeta.
    destruct (existsb _ _);
      match goal with
      | |- context [language_model ?n ?c] => destruct (language_model n c)
      end; simpl; (split; [reflexivity |]).
    all: intros addr Haddr; unfold deref; simpl.
    all: rewrite ?list_lookup_alter_ne by lia.
    all: now rewrite lookup_app_l. }
  assert (Hdeadline :
    let w' := (override_and_invoke language_model state w).2 in
    process w' = process w /\
    (forall a, a < length (heap w) -> deref a w' = deref a w)).
  { destruct (override_and_invoke_spec language_model state w) as (_ & _ & Hp & Hh).
    cbv zeta. unfold deref. rewrite Hp, Hh. split; auto. }
  unfold quiz_processing_node.
  destruct (recorded_start (process w)); [| exact Hnormal].
  destruct (deadline_exceeded float fsub _ _ _) as [[|] | e]; auto.
Qed.

Lemma quiz_processing_node_returned (state : nat) (w : World) (update : list Message) :
  (node state w).1 = Returned update ->
  exists context result,
    update = [result] /\
    gateway_log (node state w).2 = gateway_log w ++ [context] /\
    language_model (length (gateway_log w)) context = Returned result.
Proof.
  unfold quiz_processing_node, trim_and_invoke, override_and_invoke, invoke, alloc.
  cbv zeta.
  repeat match goal with
         | |- context [match recorded_start ?p with _ => _ end] =>
             destruct (recorded_start p)
         | |- context [match deadline_exceeded ?a ?b ?c ?d ?e with _ => _ end] =>
             destruct (deadline_exceeded a b c d e) as [[|] |]
         | |- context [if existsb ?f ?l then _ else _] => destruct (existsb f l)
         | |- context [language_model ?n ?c] =>
             destruct (language_model n c) eqn:?
         end; simpl; intros [= <-]; eauto.
Qed.

(** X18: when the node returns, it has called the model exactly once,
    and its update is the one message the model answered to that call. *)
Theorem node_update_is_the_answer_to_its_one_call :
  forall (state : nat) (w : World) (update : list Message),
    (node state w).1 = Returned update ->
    exists context result,
      update = [result] /\
      gateway_log (node state w).2 = gateway_log w ++ [context] /\
      language_model (length (gateway_log w)) context = Returned result.
Proof.
  intros state w update. apply quiz_processing_node_returned.
Qed.

End NodeExtras.

(** ** More on runs *)

Section RunExtras.

Variable language_model : nat -> list Message -> Outcome Message.
Variable token_counter : list Message -> Z.
Variable float : string -> option Float.
Variable fsub : Q -> Q -> Float.
Variable tool_node : nat -> Process -> list Message -> Outcome (list Message) * Process.
Variable clock : nat -> Q.
Variables USER_EMAIL USER_SECRET : option string.

Local Abbreviation agent_step := (agent_node_step language_model token_counter float fsub clock).
Local Abbreviation step := (superstep language_model token_counter float fsub tool_node clock).
Local Abbreviation run := (run_graph language_model token_counter float fsub tool_node clock).
Local Abbreviation run_from_url :=
  (run_agent language_model token_counter float fsub tool_node clock USER_EMAIL USER_SECRET).

(** The edges of the graph: after "agent" the routing function decides,
    after "tools" and "handle_malformed" comes "agent". *)
Lemma superstep_edges (k : nat) (node : Route) (messages messages' : list Message)
    (next : Route) (w w' : World) :
  node <> END ->
  step k node messages w = (Returned (messages', next), w') ->
  (node = agent -> determine_next_step messages' = Returned next) /\
  (node <> agent -> next = agent).
Proof.
  intros Hnode. destruct node; simpl; try contradiction.
  - intros [= _ <- _]. split; [discriminate | reflexivity].
  - destruct (tool_node k (process w) messages) as [[update | e] p]; [| discriminate].
    intros [= _ <- _]. split; [discriminate | reflexivity].
  - unfold agent_superstep.
    destruct (agent_step k messages w) as [[messages1 | e] w1]; [| discriminate].
    destruct (determine_next_step messages1) as [r | e] eqn:E; [| discriminate].
    intros [= <- <- _]. split; [auto | congruence].
Qed.

Lemma superstep_calls (k : nat) (node : Route) (messages messages' : list Message)
    (next : Route) (w w' : World) :
  step k node messages w = (Returned (messages', next), w') ->
  length (gateway_log w') = (if is_agent node then 1 else 0) + length (gateway_log w).
Proof.
  destruct node; simpl.
  - now intros [= _ _ <-].
  - destruct (tool_node k (process w) messages) as [[update | e] p]; [| discriminate].
    now intros [= _ _ <-].
  - now intros [= _ _ <-].
  - unfold agent_superstep, agent_node_step.
    destruct (alloc messages (set_time (clock k) w)) as [state w1] eqn:Ealloc.
    assert (Hlog : gateway_log w1 = gateway_log w)
      by (unfold alloc in Ealloc; now inversion Ealloc).
    pose proof (quiz_processing_node_returned language_model token_counter float fsub state w1)
      as Hone.
    destruct (quiz_processing_node language_model token_counter float fsub state w1)
      as [[update | e] w2]; [| discriminate].
    destruct (Hone update eq_refl) as (context & result & _ & Hcalls & _).
    simpl in Hcalls.
    destruct (determine_next_step _); [| discriminate].
    intros [= _ _ <-]. rewrite Hcalls, length_app, Hlog. simpl. lia.
Qed.

Lemma run_head (limit k : nat) (node : Route) (messages : list Message) (w : World) :
  head (trace (run limit k node messages w)) = None \/
  head (trace (run limit k node messages w)) = Some (node, messages).
Proof.
  destruct (Route_END_or_not node) as [-> | Hnode]; [rewrite run_graph_END; now left |].
  destruct limit; [rewrite run_graph_O by assumption; now left |].
  rewrite run_graph_S by assumption.
  destruct (step k node messages w) as [[[messages' next] | e] w']; now right.
Qed.

Lemma run_trace_shape (limit k : nat) (node : Route) (messages : list Message) (w : World) :
  let r := run limit k node messages w in
  (forall entry, In entry (trace r) -> entry.1 <> END) /\
  (forall i n1 m1 n2 m2,
      trace r !! i = Some (n1, m1) -> trace r !! S i = Some (n2, m2) ->
      (n1 = agent -> determine_next_step m2 = Returned n2) /\
      (n1 <> agent -> n2 = agent)).
Proof.
  revert k node messages w.
  induction limit as [| limit IH]; intros k node messages w; cbv zeta.
  - destruct (Route_END_or_not node) as [-> | Hnode].
    + rewrite run_graph_END. simpl. split; [tauto | intros i; discriminate].
    + rewrite run_graph_O by assumption. simpl. split; [tauto | intros i; discriminate].
  - destruct (Route_END_or_not node) as [-> | Hnode].
    + rewrite run_graph_END. simpl. split; [tauto | intros i; discriminate].
    + rewrite run_graph_S by assumption.
      destruct (step k node messages w) as [[[messages' next] | e] w'] eqn:Estep; simpl.
      * destruct (IH (S k) next messages' w') as [Hno Hadj].
        split.
        -- intros entry [<- | Hin]; [exact Hnode | now apply Hno].
        -- intros [| i] n1 m1 n2 m2; simpl.
           ++ intros [= <- <-] Hsecond.
              destruct (run_head limit (S k) next messages' w') as [Hh | Hh];
                rewrite head_lookup in Hh; rewrite Hh in Hsecond; [discriminate |].
              injection Hsecond as <- <-.
              exact (superstep_edges k node messages messages' next w w' Hnode Estep).
           ++ apply Hadj.
      * split; [intros entry [<- | []]; exact Hnode |].
        intros [| i] n1 m1 n2 m2; simpl; [intros _ | ]; discriminate.
Qed.

(** X19: in the trace of a run, the first node entered is "agent";
    [END] is never entered; the node entered after "agent" is the one
    the routing function names for the conversation the agent step left,
    and the node entered after "tools" or "handle_malformed" is
    "agent". *)
Theorem trace_follows_the_graph :
  forall (quiz_url : string) (w : World),
    let r := run_from_url quiz_url w in
    (exists later,
        trace r = (agent, initial_message_stack USER_EMAIL USER_SECRET quiz_url) :: later) /\
    (forall entry, In entry (trace r) -> entry.1 <> END) /\
    (forall i n1 m1 n2 m2,
        trace r !! i = Some (n1, m1) -> trace r !! S i = Some (n2, m2) ->
        (n1 = agent -> determine_next_step m2 = Returned n2) /\
        (n1 <> agent -> n2 = agent)).
Proof.
  intros quiz_url w r. subst r. unfold run_agent.
  assert (Hdepth : MAX_RECURSION_DEPTH <> 0).
  { unfold MAX_RECURSION_DEPTH. intros H. apply (f_equal Z.of_nat) in H.
    rewrite Z2Nat.id in H by lia. discriminate H. }
  revert Hdepth. generalize MAX_RECURSION_DEPTH.
  intros [| depth] Hdepth; [contradiction |]. split.
  - rewrite run_graph_S by discriminate.
    destruct (step 0 agent _ w) as [[[messages' next] | e] w']; simpl; eauto.
  - apply run_trace_shape.
Qed.

Lemma run_done (limit k : nat) (node : Route) (messages : list Message) (w : World) :
  ending (run limit k node messages w) = Done ->
  node = END \/
  determine_next_step (conversation (run limit k node messages w)) = Returned END.
Proof.
  revert k node messages w.
  induction limit as [| limit IH]; intros k node messages w.
  - destruct (Route_END_or_not node) as [-> | Hnode]; [now left |].
    rewrite run_graph_O by assumption. discriminate.
  - destruct (Route_END_or_not node) as [-> | Hnode]; [now left |].
    rewrite run_graph_S by assumption.
    destruct (step k node messages w) as [[[messages' next] | e] w'] eqn:Estep; simpl;
      [| discriminate].
    intros Hdone. right.
    destruct (IH (S k) next messages' w' Hdone) as [-> | Hend]; [| exact Hend].
    rewrite run_graph_END. simpl.
    destruct (superstep_edges k node messages messages' END w w' Hnode Estep) as [Ha Hb].
    destruct node; try contradiction; try (now apply Ha); now specialize (Hb ltac:(discriminate)).
Qed.

(** X20: a run ends normally only on an END reply: when [run_agent]
    ends with [Done], the routing function sends the stored conversation
    to [END]. *)
Theorem run_is_done_only_on_end_reply :
  forall (quiz_url : string) (w : World),
    ending (run_from_url quiz_url w) = Done ->
    determine_next_step (conversation (run_from_url quiz_url w)) = Returned END.
Proof.
  intros quiz_url w. unfold run_agent. generalize MAX_RECURSION_DEPTH.
  intros depth Hdone.
  destruct (run_done _ _ _ _ _ Hdone) as [H | H]; [discriminate | exact H].
Qed.

Lemma run_calls (limit k : nat) (node : Route) (messages : list Message) (w : World) :
  let r := run limit k node messages w in
  agent_entries (trace r) + length (gateway_log w) <= S (length (gateway_log (final r))) /\
  ((forall e, ending r <> NodeRaised e) ->
   length (gateway_log (final r)) = agent_entries (trace r) + length (gateway_log w)).
Proof.
  revert k node messages w.
  induction limit as [| limit IH]; intros k node messages w; cbv zeta.
  - destruct (Route_END_or_not node) as [-> | Hnode].
    + rewrite run_graph_END. simpl. split; [lia | reflexivity].
    + rewrite run_graph_O by assumption. simpl. split; [lia | reflexivity].
  - destruct (Route_END_or_not node) as [-> | Hnode].
    + rewrite run_graph_END. simpl. split; [lia | reflexivity].
    + rewrite run_graph_S by assumption.
      pose proof (superstep_facts language_model token_counter float fsub tool_node clock
                    k node messages w) as [Hlog _].
      destruct (step k node messages w) as [[[messages' next] | e] w'] eqn:Estep; simpl in *.
      * pose proof (superstep_calls _ _ _ _ _ _ _ Estep) as Hcalls.
        destruct (IH (S k) next messages' w') as [Hle Heq]. split.
        -- destruct (is_agent node); lia.
        -- intros Hno. rewrite (Heq Hno), Hcalls. destruct (is_agent node); lia.
      * split; [destruct (is_agent node); lia |].
        intros Hno. now destruct (Hno e).
Qed.

(** X21: a run calls the model exactly once per entry of "agent", the
    last entry excepted when the run ends on an exception of a node. *)
Theorem one_model_call_per_agent_entry :
  forall (quiz_url : string) (w : World),
    let r := run_from_url quiz_url w in
    agent_entries (trace r) + length (gateway_log w) <= S (length (gateway_log (final r))) /\
    ((forall e, ending r <> NodeRaised e) ->
     length (gateway_log (final r)) = agent_entries (trace r) + length (gateway_log w)).
Proof.
  intros quiz_url w. unfold run_agent. generalize MAX_RECURSION_DEPTH.
  intros depth. apply run_calls.
Qed.

End RunExtras.

(** *** A model whose every reply is malformed *)

Section MalformedLoop.

Variable language_model : nat -> list Message -> Outcome Message.
Variable token_counter : list Message -> Z.
Variable float : string -> option Float.
Variable fsub : Q -> Q -> Float.
Variable tool_node : nat -> Process -> list Message -> Outcome (list Message) * Process.
Variable clock : nat -> Q.
Variables USER_EMAIL USER_SECRET : option string.

Hypothesis always_malformed :
  forall n context,
    exists m, language_model n context = Returned m /\ has_malformed_reason m.

Local Abbreviation run := (run_graph language_model token_counter float fsub tool_node clock).

Lemma malformed_agent_superstep (k : nat) (messages : list Message) (w : World) :
  time_offset (process w) = "0" ->
  exists m w',
    agent_superstep language_model token_counter float fsub clock k messages w
      = (Returned (messages ++ [m], handle_malformed), w') /\
    length (gateway_log w') = S (length (gateway_log w)) /\
    time_offset (process w') = "0".
Proof.
  intros Hoff.
  destruct (deadline_check_without_offset float fsub (process (set_time (clock k) w)) Hoff)
    as [b Hb].
  unfold agent_superstep.
  assert (Hstep : exists m,
             (agent_node_step language_model token_counter float fsub clock k messages w).1
               = Returned (messages ++ [m]) /\ has_malformed_reason m /\
             length (gateway_log
               (agent_node_step language_model token_counter float fsub clock k messages w).2)
               = S (length (gateway_log w)) /\
             process (agent_node_step language_model token_counter float fsub clock k messages w).2
               = process (set_time (clock k) w)).
  { destruct b.
    - destruct (agent_step_deadline language_model token_counter float fsub clock k messages w Hb)
        as (Hres & Hlog & _ & Hproc).
      destruct (always_malformed (length (gateway_log w)) (messages ++ [timeout_message]))
        as (m & Hm & Hmal).
      rewrite Hm in Hres. exists m. rewrite Hlog, length_app. simpl.
      repeat split; auto; lia.
    - destruct (agent_step_normal language_model token_counter float fsub clock k messages w Hb)
        as (Hres & Hlog & _ & _ & Hproc).
      destruct (always_malformed (length (gateway_log w))
                  (transient_view token_counter messages (process (set_time (clock k) w))))
        as (m & Hm & Hmal).
      rewrite Hm in Hres. exists m. rewrite Hlog, length_app. simpl.
      repeat split; auto; lia. }
  destruct Hstep as (m & Hres & Hmal & Hlog & Hproc).
  destruct (agent_node_step language_model token_counter float fsub clock k messages w)
    as [res w']. simpl in *. subst res.
  exists m, w'. rewrite determine_next_step_snoc.
  apply malformed_true in Hmal. rewrite Hmal.
  repeat split; [exact Hlog | now rewrite Hproc].
Qed.

Lemma malformed_loop (n k : nat) (messages : list Message) (w : World) :
  time_offset (process w) = "0" ->
  let r := run (n + n) k agent messages w in
  ending r = OutOfSteps /\
  agent_entries (trace r) = n /\
  length (gateway_log (final r)) = n + length (gateway_log w) /\
  length (conversation r) = n + n + length messages.
Proof.
  revert k messages w.
  induction n as [| n IH]; intros k messages w Hoff; [simpl; auto |].
  cbv zeta. replace (S n + S n) with (S (S (n + n))) by lia.
  rewrite run_graph_S by discriminate.
  change (superstep language_model token_counter float fsub tool_node clock k agent messages w)
    with (agent_superstep language_model token_counter float fsub clock k messages w).
  destruct (malformed_agent_superstep k messages w Hoff) as (m & w' & -> & Hlog & Hoff').
  cbv zeta. rewrite run_graph_S by discriminate. cbn [superstep].
  destruct (IH (S (S k))
              (add_messages (messages ++ [m]) (handle_json_error_node (messages ++ [m])))
              w' Hoff') as (Hend & Hentries & Hcalls & Hlen).
  cbn [ending trace final conversation agent_entries is_agent].
  rewrite Hend, Hentries, Hcalls, Hlen, Hlog.
  unfold add_messages, handle_json_error_node. rewrite !length_app. simpl.
  repeat split; lia.
Qed.

(** X22: malformed replies are retried with no limit of their own: with
    a model whose every reply is malformed (and no offset in the
    environment), [run_agent] goes from "agent" to "handle_malformed"
    and back until the ceiling stops it, after 2500 calls of the model
    and with 5002 stored messages. *)
Theorem malformed_replies_are_retried_up_to_the_ceiling :
  forall (quiz_url : string) (w : World),
    time_offset (process w) = "0" ->
    let r := run_agent language_model token_counter float fsub tool_node clock
               USER_EMAIL USER_SECRET quiz_url w in
    ending r = OutOfSteps /\
    Z.of_nat (agent_entries (trace r)) = 2500%Z /\
    Z.of_nat (length (gateway_log (final r)))
      = (2500 + Z.of_nat (length (gateway_log w)))%Z /\
    Z.of_nat (length (conversation r)) = 5002%Z.
Proof.
  intros quiz_url w Hoff r. subst r. unfold run_agent.
  assert (Hdepth : exists d, MAX_RECURSION_DEPTH = d + d /\ Z.of_nat d = 2500%Z).
  { exists (Z.to_nat 2500). unfold MAX_RECURSION_DEPTH. split; lia. }
  destruct Hdepth as (d & Hd & Hd'). revert Hd. generalize MAX_RECURSION_DEPTH.
  intros depth ->.
  destruct (malformed_loop d 0 (initial_message_stack USER_EMAIL USER_SECRET quiz_url) w Hoff)
    as (Hend & Hentries & Hcalls & Hlen).
  rewrite Hend, Hentries, Hcalls, Hlen. simpl. repeat split; lia.
Qed.

End MalformedLoop.

(** A model that answers every call with the same malformed reply, and
    one that always fails. *)
Definition malformed_answers (n : nat) (context : list Message) : Outcome Message :=
  Returned malformed_reply.

Definition failing_model (n : nat) (context : list Message) : Outcome Message :=
  Raised (ExternalError "429 quota exceeded").

(** The process 10 seconds into the task, with an offset that is not a
    number. *)
Definition with_unreadable_offset : Process :=
  mkProcess 1000 {[ "url" := task_url; "offset" := "soon" ]} {[ task_url := 990%Q ]}.

Lemma malformed_replies_are_retried_up_to_the_ceiling_witness :
  let w := fresh_world on_first_task in
  let r := run_agent malformed_answers count_characters float_of_digits exact_sub
             long_page_tool_node clock_1000 (Some "a@b.c") (Some "s3cret") task_url w in
  (forall n context,
      exists m, malformed_answers n context = Returned m /\ has_malformed_reason m) /\
  time_offset (process w) = "0" /\
  ending r = OutOfSteps /\
  Z.of_nat (agent_entries (trace r)) = 2500%Z.
Proof.
  intros w r.
  assert (H1 : forall n context,
             exists m, malformed_answers n context = Returned m /\ has_malformed_reason m).
  { intros n context. exists malformed_reply. split; [reflexivity |].
    vm_compute. reflexivity. }
  assert (H2 : time_offset (process w) = "0") by (vm_compute; reflexivity).
  split; [exact H1 | split; [exact H2 |]].
  pose proof (malformed_replies_are_retried_up_to_the_ceiling malformed_answers
                count_characters float_of_digits exact_sub long_page_tool_node clock_1000
                (Some "a@b.c") (Some "s3cret") H1 task_url w H2) as H.
  exact (conj (proj1 H) (proj1 (proj2 H))).
Defined.

Lemma unreadable_offset_raises_before_any_call_witness :
  let w := fresh_world with_unreadable_offset in
  let p := process (set_time (clock_1000 0) w) in
  recorded_start p = Some 990%Q /\
  float_ge (exact_sub (time_now p) 990) 180 = false /\
  time_offset p <> "0" /\
  float_of_digits (time_offset p) = None /\
  (agent_node_step plain_answers count_characters float_of_digits exact_sub clock_1000 0 seeded w).1
    = Raised ValueError /\
  gateway_log
    (agent_node_step plain_answers count_characters float_of_digits exact_sub clock_1000 0 seeded w).2
    = gateway_log w.
Proof.
  intros w p.
  assert (H1 : recorded_start p = Some 990%Q) by (vm_compute; reflexivity).
  assert (H2 : float_ge (exact_sub (time_now p) 990) 180 = false)
    by (vm_compute; reflexivity).
  assert (H3 : time_offset p <> "0") by (vm_compute; discriminate).
  assert (H4 : float_of_digits (time_offset p) = None) by (vm_compute; reflexivity).
  repeat (split; [assumption |]).
  exact (unreadable_offset_raises_before_any_call plain_answers count_characters
           float_of_digits exact_sub clock_1000 0 seeded w 990%Q H1 H2 H3 H4).
Defined.

Lemma model_failure_leaves_conversation_unchanged_witness :
  let w := fresh_world on_first_task in
  let p := process (set_time (clock_1000 0) w) in
  deadline_check float_of_digits exact_sub p = Returned false /\
  failing_model 0 (context_sent count_characters false seeded p)
    = Raised (ExternalError "429 quota exceeded") /\
  (agent_node_step failing_model count_characters float_of_digits exact_sub clock_1000 0 seeded w).1
    = Raised (ExternalError "429 quota exceeded") /\
  deref 0
    (agent_node_step failing_model count_characters float_of_digits exact_sub clock_1000 0 seeded w).2
    = seeded.
Proof.
  intros w p.
  assert (H1 : deadline_check float_of_digits exact_sub p = Returned false)
    by (vm_compute; reflexivity).
  assert (H2 : failing_model 0 (context_sent count_characters false seeded p)
               = Raised (ExternalError "429 quota exceeded")) by reflexivity.
  split; [exact H1 | split; [exact H2 |]].
  pose proof (model_failure_leaves_conversation_unchanged failing_model count_characters
                float_of_digits exact_sub clock_1000 0 seeded w false
                (ExternalError "429 quota exceeded") H1 H2) as H.
  exact (conj (proj1 H) (proj2 (proj2 H))).
Defined.

Lemma node_update_is_the_answer_to_its_one_call_witness :
  let w := mkWorld on_first_task [seeded] [] in
  (quiz_processing_node plain_answers count_characters float_of_digits exact_sub 0 w).1
    = Returned [plain_reply] /\
  exists context result,
    [plain_reply] = [result] /\
    gateway_log (quiz_processing_node plain_answers count_characters float_of_digits exact_sub 0 w).2
      = gateway_log w ++ [context] /\
    plain_answers (length (gateway_log w)) context = Returned result.
Proof.
  intros w.
  assert (H : (quiz_processing_node plain_answers count_characters float_of_digits exact_sub 0 w).1
              = Returned [plain_reply]) by (vm_compute; reflexivity).
  split; [exact H |].
  exact (node_update_is_the_answer_to_its_one_call plain_answers count_characters
           float_of_digits exact_sub 0 w [plain_reply] H).
Defined.

Lemma run_is_done_only_on_end_reply_witness :
  let r := run_agent fetch_then_end count_characters float_of_digits exact_sub long_page_tool_node
             clock_1000 (Some "a@b.c") (Some "s3cret") task_url (fresh_world on_first_task) in
  ending r = Done /\ determine_next_step (conversation r) = Returned END.
Proof.
  intros r.
  assert (H : ending r = Done) by (vm_compute; reflexivity).
  split; [exact H |].
  exact (run_is_done_only_on_end_reply fetch_then_end count_characters float_of_digits exact_sub
           long_page_tool_node clock_1000 (Some "a@b.c") (Some "s3cret") task_url
           (fresh_world on_first_task) H).
Defined.

End Agent.
(** ** main.py: the HTTP front end *)

Module Main.

(** The process-wide state the handler of [/solve] works on: the two
    stores of [shared_store], [os.environ], and the background tasks
    scheduled so far (each is a call of [run_agent] on a URL). *)
Record State : Type := mkState {
  url_time : gmap string Q;
  BASE64_STORE : gmap string string;
  environ : gmap string string;
  background_tasks : list string
}.

(** What the handler returns when it returns. *)
Inductive Reply : Type :=
| JSONResponse (status_code : Z) (content : JSON).

(** [not x] for the result of [dict.get], [None] when the key is absent. *)
Definition falsy (x : option JSON) : bool :=
  match x with
  | Some v => negb (truthy v)
  | None => true
  end.

(** [provided_secret != AUTH_SECRET], where [AUTH_SECRET] is the value
    of [os.getenv("SECRET")]. *)
Definition differs (provided_secret : option JSON) (AUTH_SECRET : option string) : bool :=
  match provided_secret, AUTH_SECRET with
  | Some (JStr s), Some secret => negb (String.eqb s secret)
  | Some JNull, None => false
  | None, None => false
  | _, _ => true
  end.

(** A string holds the character of code 0. *)
Fixpoint has_null_byte (s : string) : bool :=
  match s with
  | EmptyString => false
  | String c rest => Ascii.eqb c Ascii.zero || has_null_byte rest
  end.

(** [os.environ[key] = value]: TypeError unless the value is a string,
    ValueError when it holds a null byte. *)
Definition environ_set (key : string) (value : JSON) (env : gmap string string)
    : Outcome (gmap string string) :=
  match value with
  | JStr s => if has_null_byte s then Raised ValueError else Returned (<[key := s]> env)
  | _ => Raised TypeError
  end.

Definition Invalid_JSON : Exn := HTTPException 400 "Invalid JSON".
Definition Invalid_secret : Exn := HTTPException 403 "Invalid secret".

(** The statements of the handler after the secret check: the stores
    are cleared, then [os.environ["url"] = quiz_url] raises unless
    [quiz_url] is a string without null byte. *)
Definition start_task (now : Q) (quiz_url : JSON) (st : State) : Outcome Reply * State :=
  let cleared := mkState ∅ ∅ (environ st) (background_tasks st) in
  match quiz_url with
  | JStr url =>
      match environ_set "url" quiz_url (environ st) with
      | Raised e => (Raised e, cleared)
      | Returned env1 =>
          (Returned (JSONResponse 200 (JObj [("status", JStr "ok")])),
           mkState (<[url := now]> ∅) ∅ (<["offset" := "0"]> env1)
                   (background_tasks st ++ [url]))
      end
  | _ => (Raised TypeError, cleared)
  end.

(** [process_quiz_request]: [request_json] is the outcome of
    [await request.json()], [None] when it raises; [now] is what
    [time.time()] returns. *)
Definition process_quiz_request (AUTH_SECRET : option string) (now : Q)
    (request_json : option JSON) (st : State) : Outcome Reply * State :=
  match request_json with
  | None => (Raised Invalid_JSON, st)
  | Some request_data =>
      if negb (truthy request_data) then (Raised Invalid_JSON, st)
      else
        match request_data with
        | JObj members =>
            let quiz_url := dict_get "url" members in
            let provided_secret := dict_get "secret" members in
            if falsy quiz_url || falsy provided_secret then (Raised Invalid_JSON, st)
            else if differs provided_secret AUTH_SECRET then (Raised Invalid_secret, st)
            else start_task now (default JNull quiz_url) st
        | _ => (Raised AttributeError, st)
        end
  end.

(** The status the client sees: the web framework turns an
    HTTPException into a response with its status code, and any other
    exception into the status 500. *)
Definition status_seen (outcome : Outcome Reply) : Z :=
  match outcome with
  | Returned (JSONResponse status_code _) => status_code
  | Raised (HTTPException status_code _) => status_code
  | Raised _ => 500
  end.

(** *** Properties of the handler *)

(** The request passed both checks: the body is an object whose [url]
    and [secret] are present and truthy, and the secret is the
    configured one. *)
Definition passed_checks (AUTH_SECRET : option string) (request_json : option JSON) : Prop :=
  exists members quiz_url secret,
    request_json = Some (JObj members) /\
    dict_get "url" members = Some quiz_url /\ truthy quiz_url = true /\
    dict_get "secret" members = Some (JStr secret) /\ secret <> "" /\
    AUTH_SECRET = Some secret.

Lemma falsy_false (x : option JSON) :
  falsy x = false -> exists v, x = Some v /\ truthy v = true.
Proof.
  destruct x as [v |]; simpl; [| discriminate].
  intros H. exists v. split; [reflexivity | now apply negb_false_iff].
Qed.

Lemma differs_false (x : JSON) (AUTH_SECRET : option string) :
  truthy x = true -> differs (Some x) AUTH_SECRET = false ->
  exists secret, x = JStr secret /\ secret <> "" /\ AUTH_SECRET = Some secret.
Proof.
  intros Htrue Hsame.
  destruct x as [ | b | q | s | items | members]; destruct AUTH_SECRET as [secret |];
    simpl in *; try discriminate.
  apply negb_false_iff, String.eqb_eq in Hsame. subst secret.
  exists s. repeat split. intros ->. discriminate.
Qed.

(** The handler, case by case. *)
Lemma process_quiz_request_cases (AUTH_SECRET : option string) (now : Q)
    (request_json : option JSON) (st : State) :
  process_quiz_request AUTH_SECRET now request_json st = (Raised Invalid_JSON, st) \/
  process_quiz_request AUTH_SECRET now request_json st = (Raised Invalid_secret, st) \/
  process_quiz_request AUTH_SECRET now request_json st = (Raised AttributeError, st) \/
  (passed_checks AUTH_SECRET request_json /\
   exists quiz_url,
     process_quiz_request AUTH_SECRET now request_json st = start_task now quiz_url st).
Proof.
  unfold process_quiz_request.
  destruct request_json as [request_data |]; [| auto].
  destruct (truthy request_data) eqn:Htruthy; simpl; [| auto].
  destruct request_data as [ | b | q | s | items | members]; auto.
  destruct (falsy (dict_get "url" members)) eqn:Hurl; simpl; [auto |].
  destruct (falsy (dict_get "secret" members)) eqn:Hsecret; simpl; [auto |].
  destruct (differs (dict_get "secret" members) AUTH_SECRET) eqn:Hdiff; [auto |].
  apply falsy_false in Hurl, Hsecret.
  destruct Hurl as (quiz_url & Hurl & Hu), Hsecret as (provided & Hsecret & Hp).
  rewrite Hsecret in Hdiff.
  destruct (differs_false provided AUTH_SECRET Hp Hdiff) as (secret & -> & Hne & ->).
  right. right. right. split.
  - exists members, quiz_url, secret. repeat split; assumption.
  - exists quiz_url. now rewrite Hurl.
Qed.

Lemma start_task_status (now : Q) (quiz_url : JSON) (st : State) :
  status_seen (start_task now quiz_url st).1 = 200%Z \/
  status_seen (start_task now quiz_url st).1 = 500%Z.
Proof.
  unfold start_task, environ_set.
  destruct quiz_url as [ | b | q | s | items | members]; simpl; auto.
  destruct (has_null_byte s); simpl; auto.
Qed.

(** C10: a request answered with 400 or 403 leaves the timing store, the
    base64 cache, the environment and the scheduled background tasks
    exactly as they were; whenever any of them changes, the request had
    passed both the field check and the secret check. *)
Theorem rejected_request_changes_nothing :
  forall (AUTH_SECRET : option string) (now : Q) (request_json : option JSON) (st : State),
    let handled := process_quiz_request AUTH_SECRET now request_json st in
    (status_seen handled.1 = 400%Z \/ status_seen handled.1 = 403%Z -> handled.2 = st) /\
    (handled.2 <> st -> passed_checks AUTH_SECRET request_json).
Proof.
  intros AUTH_SECRET now request_json st handled. subst handled.
  destruct (process_quiz_request_cases AUTH_SECRET now request_json st)
    as [-> | [-> | [-> | (Hpassed & quiz_url & ->)]]]; simpl.
  - split; [reflexivity | congruence].
  - split; [reflexivity | congruence].
  - split; [reflexivity | congruence].
  - split; [| auto].
    destruct (start_task_status now quiz_url st) as [H | H]; rewrite H;
      intros [? | ?]; discriminate.
Qed.

(** A state with a task under way, and three requests. *)
Definition busy : State :=
  mkState {[ "http://x/q0" := 5%Q ]} {[ "img" := "aGVsbG8=" ]}
          {[ "url" := "http://x/q0"; "offset" := "12" ]} ["http://x/q0"].

Definition good_request : option JSON :=
  Some (JObj [("url", JStr "http://x/q1"); ("secret", JStr "s3cret")]).

Definition wrong_secret_request : option JSON :=
  Some (JObj [("url", JStr "http://x/q1"); ("secret", JStr "guess")]).

Definition missing_url_request : option JSON :=
  Some (JObj [("secret", JStr "s3cret")]).

Lemma rejected_request_changes_nothing_witness :
  let handled := process_quiz_request (Some "s3cret") 100 wrong_secret_request busy in
  status_seen handled.1 = 403%Z /\ handled.2 = busy.
Proof.
  intros handled.
  assert (Hstatus : status_seen handled.1 = 403%Z) by reflexivity.
  split; [exact Hstatus |].
  exact (proj1 (rejected_request_changes_nothing (Some "s3cret") 100
                  wrong_secret_request busy) (or_intror Hstatus)).
Defined.

(** The scenario of the specification: a good request is acknowledged
    with 200, a wrong secret is answered with 403, a missing [url] with
    400. *)
Example solve_scenario :
  status_seen (process_quiz_request (Some "s3cret") 100 good_request busy).1 = 200%Z /\
  status_seen (process_quiz_request (Some "s3cret") 100 wrong_secret_request busy).1 = 403%Z /\
  status_seen (process_quiz_request (Some "s3cret") 100 missing_url_request busy).1 = 400%Z.
Proof. repeat split. Qed.

(** X23: a request that passes both checks with a URL that is a string
    without null byte: the two stores are cleared, the start of the task
    is recorded, [url] and [offset] are set in the environment, one run
    is scheduled and the reply is 200 with [{"status": "ok"}]. *)
Lemma accepted_request_starts_run (now : Q) (members : list (string * JSON))
    (url secret : string) (st : State) :
  dict_get "url" members = Some (JStr url) -> url <> "" -> has_null_byte url = false ->
  dict_get "secret" members = Some (JStr secret) -> secret <> "" ->
  process_quiz_request (Some secret) now (Some (JObj members)) st =
    (Returned (JSONResponse 200 (JObj [("status", JStr "ok")])),
     mkState {[ url := now ]} ∅
             (<["offset" := "0"]> (<["url" := url]> (environ st)))
             (background_tasks st ++ [url])).
Proof.
  intros Hurl Hu Hnull Hsecret Hs.
  unfold process_quiz_request.
  assert (Hmembers : truthy (JObj members) = true).
  { destruct members; [discriminate | reflexivity]. }
  rewrite Hmembers, Hurl, Hsecret. simpl.
  apply String.eqb_neq in Hu, Hs. rewrite Hu, Hs. simpl.
  rewrite String.eqb_refl. simpl.
  unfold start_task, environ_set. now rewrite Hnull.
Qed.

(** C7, at a body that is valid JSON but not an object: the handler
    raises AttributeError on [request_data.get], which the client sees
    as the status 500, not 400. *)
Theorem array_body_is_answered_with_500 :
  forall (AUTH_SECRET : option string) (now : Q) (st : State),
    process_quiz_request AUTH_SECRET now (Some (JArr [JNum 1])) st
      = (Raised AttributeError, st) /\
    status_seen (process_quiz_request AUTH_SECRET now (Some (JArr [JNum 1])) st).1 = 500%Z.
Proof.
  intros AUTH_SECRET now st. split; reflexivity.
Qed.

(** A request that passes both checks with a URL that is not a string:
    the stores are cleared before [os.environ["url"] = quiz_url] raises
    TypeError, and no run is scheduled. *)
Example numeric_url_clears_then_raises :
  process_quiz_request (Some "s3cret") 100
    (Some (JObj [("url", JNum 7); ("secret", JStr "s3cret")])) busy
  = (Raised TypeError, mkState ∅ ∅ (environ busy) (background_tasks busy)).
Proof. reflexivity. Qed.


(** *** More on the handler *)

Lemma accepted_request_starts_run_witness :
  let members := [("url", JStr "http://x/q1"); ("secret", JStr "s3cret")] in
  dict_get "url" members = Some (JStr "http://x/q1") /\
  "http://x/q1" <> "" /\ has_null_byte "http://x/q1" = false /\
  dict_get "secret" members = Some (JStr "s3cret") /\ "s3cret" <> "" /\
  process_quiz_request (Some "s3cret") 100 (Some (JObj members)) busy =
    (Returned (JSONResponse 200 (JObj [("status", JStr "ok")])),
     mkState {[ "http://x/q1" := 100%Q ]} ∅
             (<["offset" := "0"]> (<["url" := "http://x/q1"]> (environ busy)))
             (background_tasks busy ++ ["http://x/q1"])).
Proof.
  intros members.
  assert (H1 : dict_get "url" members = Some (JStr "http://x/q1")) by reflexivity.
  assert (H2 : "http://x/q1" <> "") by discriminate.
  assert (H3 : has_null_byte "http://x/q1" = false) by reflexivity.
  assert (H4 : dict_get "secret" members = Some (JStr "s3cret")) by reflexivity.
  assert (H5 : "s3cret" <> "") by discriminate.
  repeat (split; [assumption |]).
  exact (accepted_request_starts_run 100 members "http://x/q1" "s3cret" busy
           H1 H2 H3 H4 H5).
Defined.

(** X24: the status is 400 exactly when the body is not JSON, is a falsy
    value, or is an object whose [url] or [secret] is absent or falsy,
    whatever the secret; it is 403 exactly when the body is an object
    whose [url] and [secret] are both truthy and the secret is not the
    configured one. *)
Theorem rejection_status_iff :
  forall (AUTH_SECRET : option string) (now : Q) (request_json : option JSON) (st : State),
    let status := status_seen (process_quiz_request AUTH_SECRET now request_json st).1 in
    (status = 400%Z <->
       request_json = None \/
       (exists request_data, request_json = Some request_data /\ truthy request_data = false) \/
       (exists members,
           request_json = Some (JObj members) /\
           (falsy (dict_get "url" members) = true \/
            falsy (dict_get "secret" members) = true))) /\
    (status = 403%Z <->
       exists members,
         request_json = Some (JObj members) /\
         falsy (dict_get "url" members) = false /\
         falsy (dict_get "secret" members) = false /\
         differs (dict_get "secret" members) AUTH_SECRET = true).
Proof.
  intros AUTH_SECRET now request_json st status. subst status.
  unfold process_quiz_request.
  destruct request_json as [request_data |]; [| simpl].
  destruct (truthy request_data) eqn:Htruthy; simpl.
  destruct request_data as [ | b | q | s | items | members]; simpl.
  6: destruct (falsy (dict_get "url" members)) eqn:Hurl; simpl.
  7: destruct (falsy (dict_get "secret" members)) eqn:Hsecret; simpl.
  8: destruct (differs (dict_get "secret" members) AUTH_SECRET) eqn:Hdiff; simpl.
  9: destruct (start_task_status now (default JNull (dict_get "url" members)) st) as [H | H];
       rewrite H.
  all: split; split.
  all: try discriminate.
  all: try reflexivity.
  all: try (intros _; solve [ now left
                            | right; left; eexists; split; [reflexivity | assumption]
                            | right; right; eexists; split; [reflexivity | auto]
                            | eexists; split; [reflexivity | auto] ]).
  all: try (intros Hrhs; exfalso;
            repeat match goal with
                   | H : _ \/ _ |- _ => destruct H
                   | H : exists _, _ |- _ => destruct H
                   | H : _ /\ _ |- _ => destruct H
                   | H : Some _ = Some _ |- _ => injection H as H; try subst
                   | H : Some _ = None |- _ => discriminate H
                   | H : None = Some _ |- _ => discriminate H
                   end;
            simpl in *; congruence).
  intros (m & Hm & H1 & _). injection Hm as ->.
  destruct m; simpl in *; discriminate.
Qed.

(** X25: a request that passes both checks with a [url] that is not a
    string, or holds a null byte, is answered with 500 after the two
    stores were cleared: the environment is as before and no run is
    scheduled. *)
Theorem unusable_url_clears_stores_and_schedules_nothing :
  forall (now : Q) (members : list (string * JSON)) (quiz_url : JSON)
         (secret : string) (st : State),
    dict_get "url" members = Some quiz_url -> truthy quiz_url = true ->
    dict_get "secret" members = Some (JStr secret) -> secret <> "" ->
    (forall url, quiz_url = JStr url -> has_null_byte url = true) ->
    let handled := process_quiz_request (Some secret) now (Some (JObj members)) st in
    status_seen handled.1 = 500%Z /\
    handled.2 = mkState ∅ ∅ (environ st) (background_tasks st).
Proof.
  intros now members quiz_url secret st Hurl Hu Hsecret Hs Hbad handled. subst handled.
  unfold process_quiz_request.
  assert (Hmembers : truthy (JObj members) = true).
  { destruct members; [discriminate | reflexivity]. }
  rewrite Hmembers, Hurl, Hsecret. simpl. rewrite Hu. simpl.
  apply String.eqb_neq in Hs. rewrite Hs. simpl. rewrite String.eqb_refl. simpl.
  unfold start_task, environ_set.
  destruct quiz_url as [ | b | q | url | items | ms]; simpl; auto.
  rewrite (Hbad url eq_refl). simpl. auto.
Qed.

Lemma unusable_url_clears_stores_and_schedules_nothing_witness :
  let members := [("url", JNum 7); ("secret", JStr "s3cret")] in
  let handled := process_quiz_request (Some "s3cret") 100 (Some (JObj members)) busy in
  dict_get "url" members = Some (JNum 7) /\ truthy (JNum 7) = true /\
  dict_get "secret" members = Some (JStr "s3cret") /\ "s3cret" <> "" /\
  (forall url, JNum 7 = JStr url -> has_null_byte url = true) /\
  status_seen handled.1 = 500%Z /\
  handled.2 = mkState ∅ ∅ (environ busy) (background_tasks busy).
Proof.
  intros members handled.
  assert (H1 : dict_get "url" members = Some (JNum 7)) by reflexivity.
  assert (H2 : truthy (JNum 7) = true) by reflexivity.
  assert (H3 : dict_get "secret" members = Some (JStr "s3cret")) by reflexivity.
  assert (H4 : "s3cret" <> "") by discriminate.
  assert (H5 : forall url, JNum 7 = JStr url -> has_null_byte url = true) by discriminate.
  repeat (split; [assumption |]).
  exact (unusable_url_clears_stores_and_schedules_nothing 100 members (JNum 7) "s3cret"
           busy H1 H2 H3 H4 H5).
Defined.

(** *** From the handler to the agent node *)

(** The process state the agent node reads at the time [now], after the
    handler left the state [st]. *)
Definition process_read_at (now : Q) (st : State) : Agent.Process :=
  Agent.mkProcess now (environ st) (url_time st).

(** What an accepted request leaves for the agent node to read. *)
Lemma accepted_request_leaves (now : Q) (members : list (string * JSON))
    (url secret : string) (st : State) :
  dict_get "url" members = Some (JStr url) -> url <> "" -> has_null_byte url = false ->
  dict_get "secret" members = Some (JStr secret) -> secret <> "" ->
  forall later : Q,
    process_read_at later
      (process_quiz_request (Some secret) now (Some (JObj members)) st).2
    = Agent.mkProcess later
        (<["offset" := "0"]> (<["url" := url]> (environ st))) {[ url := now ]}.
Proof.
  intros Hurl Hu Hnull Hsecret Hs later.
  unfold process_quiz_request.
  assert (Hmembers : truthy (JObj members) = true).
  { destruct members; [discriminate | reflexivity]. }
  rewrite Hmembers, Hurl, Hsecret. simpl.
  apply String.eqb_neq in Hu, Hs. rewrite Hu, Hs. simpl.
  rewrite String.eqb_refl. simpl.
  unfold start_task, environ_set. now rewrite Hnull.
Qed.

(** X26: after an accepted request, the agent node takes the deadline
    branch exactly when the difference it computes between its clock and
    the time of the request is 180 or more; the offset rule is off,
    whatever [float] does. *)
Theorem deadline_counts_from_accepted_request :
  forall (float : string -> option Float) (fsub : Q -> Q -> Float) (accepted_at now : Q)
         (members : list (string * JSON)) (url secret : string) (st : State),
    dict_get "url" members = Some (JStr url) -> url <> "" -> has_null_byte url = false ->
    dict_get "secret" members = Some (JStr secret) -> secret <> "" ->
    let st' := (process_quiz_request (Some secret) accepted_at (Some (JObj members)) st).2 in
    Agent.deadline_check float fsub (process_read_at now st')
      = Returned (float_ge (fsub now accepted_at) 180).
Proof.
  intros float fsub accepted_at now members url secret st Hurl Hu Hnull Hsecret Hs st'.
  subst st'. rewrite (accepted_request_leaves _ _ _ _ _ Hurl Hu Hnull Hsecret Hs).
  unfold Agent.deadline_check, Agent.recorded_start, Agent.time_offset.
  simpl.
  rewrite lookup_insert_ne by discriminate. rewrite lookup_insert_eq. simpl.
  rewrite lookup_singleton_eq. rewrite lookup_insert_eq. simpl.
  unfold Agent.deadline_exceeded.
  destruct (float_ge (fsub now accepted_at) 180); reflexivity.
Qed.

Lemma deadline_counts_from_accepted_request_witness :
  let members := [("url", JStr "http://x/q1"); ("secret", JStr "s3cret")] in
  let st' := (process_quiz_request (Some "s3cret") 100 (Some (JObj members)) busy).2 in
  dict_get "url" members = Some (JStr "http://x/q1") /\
  "http://x/q1" <> "" /\ has_null_byte "http://x/q1" = false /\
  dict_get "secret" members = Some (JStr "s3cret") /\ "s3cret" <> "" /\
  Agent.deadline_check Agent.float_of_digits exact_sub (process_read_at 300 st')
    = Returned (float_ge (exact_sub 300 100) 180).
Proof.
  intros members st'.
  assert (H1 : dict_get "url" members = Some (JStr "http://x/q1")) by reflexivity.
  assert (H2 : "http://x/q1" <> "") by discriminate.
  assert (H3 : has_null_byte "http://x/q1" = false) by reflexivity.
  assert (H4 : dict_get "secret" members = Some (JStr "s3cret")) by reflexivity.
  assert (H5 : "s3cret" <> "") by discriminate.
  repeat (split; [assumption |]).
  exact (deadline_counts_from_accepted_request Agent.float_of_digits exact_sub 100 300
           members "http://x/q1" "s3cret" busy H1 H2 H3 H4 H5).
Defined.

(** *** [check_service_health] *)

(** The integer part of a finite number, toward zero. *)
Definition int_of (x : Q) : Z := Z.quot (Qnum x) (Zpos (Qden x)).

(** [int(x)] for a float [x]: OverflowError on an infinity, ValueError
    on NaN. *)
Definition int_of_float (x : Float) : Outcome Z :=
  match x with
  | Finite value => Returned (int_of value)
  | Infinity | NegInfinity => Raised OverflowError
  | NaN => Raised ValueError
  end.

(** What [check_service_health] returns when the clock shows [now];
    [fsub] is the subtraction of doubles. *)
Definition check_service_health (fsub : Q -> Q -> Float) (SERVICE_START_TIME now : Q)
    : Outcome JSON :=
  match int_of_float (fsub now SERVICE_START_TIME) with
  | Returned uptime =>
      Returned (JObj [("status", JStr "ok"); ("uptime_seconds", JNum (inject_Z uptime))])
  | Raised e => Raised e
  end.

Lemma int_of_nonnegative (x : Q) :
  (0 <= x)%Q ->
  (0 <= int_of x)%Z /\ (inject_Z (int_of x) <= x)%Q /\ (x < inject_Z (int_of x) + 1)%Q.
Proof.
  destruct x as [a d]. unfold Qle, Qlt, int_of. simpl. intros Ha.
  assert (Ha' : (0 <= a)%Z) by lia.
  rewrite Z.quot_div_nonneg by lia.
  pose proof (Z.mul_div_le a (Zpos d) ltac:(lia)).
  pose proof (Z.mul_succ_div_gt a (Zpos d) ltac:(lia)).
  pose proof (Z.div_pos a (Zpos d) Ha' ltac:(lia)).
  repeat split; lia.
Qed.

(** X27: when the difference the handler computes between the clock and
    the start of the service is a finite number that is not negative,
    [uptime_seconds] is the integer part of that difference: it is not
    negative, and the difference is at least that number and less than
    one more. *)
Theorem uptime_is_integer_part_of_computed_difference :
  forall (fsub : Q -> Q -> Float) (SERVICE_START_TIME now elapsed : Q),
    fsub now SERVICE_START_TIME = Finite elapsed ->
    (0 <= elapsed)%Q ->
    exists uptime : Z,
      check_service_health fsub SERVICE_START_TIME now
        = Returned (JObj [("status", JStr "ok");
                          ("uptime_seconds", JNum (inject_Z uptime))]) /\
      (0 <= uptime)%Z /\
      (inject_Z uptime <= elapsed)%Q /\
      (elapsed < inject_Z uptime + 1)%Q.
Proof.
  intros fsub start now elapsed Hsub Hpos.
  exists (int_of elapsed). unfold check_service_health. rewrite Hsub. simpl.
  split; [reflexivity |]. now apply int_of_nonnegative.
Qed.

Lemma uptime_is_integer_part_of_computed_difference_witness :
  exact_sub (1075 # 10) 100 = Finite ((1075 # 10) - 100) /\
  (0 <= (1075 # 10) - 100)%Q /\
  exists uptime : Z,
    check_service_health exact_sub 100 (1075 # 10)
      = Returned (JObj [("status", JStr "ok");
                        ("uptime_seconds", JNum (inject_Z uptime))]) /\
    (0 <= uptime)%Z /\
    (inject_Z uptime <= (1075 # 10) - 100)%Q /\
    ((1075 # 10) - 100 < inject_Z uptime + 1)%Q.
Proof.
  assert (H1 : exact_sub (1075 # 10) 100 = Finite ((1075 # 10) - 100)) by reflexivity.
  assert (H2 : (0 <= (1075 # 10) - 100)%Q) by (vm_compute; discriminate).
  split; [exact H1 | split; [exact H2 |]].
  exact (uptime_is_integer_part_of_computed_difference exact_sub 100 (1075 # 10)
           ((1075 # 10) - 100) H1 H2).
Defined.

Example uptime_after_seven_and_a_half_seconds :
  check_service_health exact_sub 100 (1075 # 10)
  = Returned (JObj [("status", JStr "ok"); ("uptime_seconds", JNum (inject_Z 7))]).
Proof. reflexivity. Qed.

End Main.
